(** * medio.backends.pdcm_io : reading and writing DICOM volumes

    A shallow embedding of [PdcmIO] (src/medio/backends/pdcm_io.py) and the
    properties its specification states about it.

    Layout of the development:
    - Python values the code manipulates: exceptions, results, the stable
      [list.sort(key=...)], pydicom datasets as finite maps from tags to
      values, numpy arrays as strided views over a buffer;
    - the file system as explicit state, threaded through a small
      state-and-exception monad;
    - the five static methods of [PdcmIO];
    - the theorems. *)

From Stdlib Require Import ZArith Strings.Byte.
From stdpp Require Import base option list sorting gmap strings fin_maps pretty.

Local Open Scope Z_scope.

(** ** Exceptions and results *)

(** The exceptions that can leave [PdcmIO].  [FileNotFoundError] is raised by
    [open] inside [pydicom.dcmread] and by [read_dcm_dir] on an empty
    directory; [AttributeError] by a missing dataset attribute;
    [TypeError] by an ordering comparison with a non integer;
    [AxisError] by numpy's axis normalisation; [InvalidDicomError] by the
    codec; [DicomImportException] by [dicom_numpy.combine_slices];
    [IndexError] by indexing past the end of a list. *)
Inductive Exception : Type :=
  | FileNotFoundError
  | AttributeError
  | TypeError
  | AxisError
  | InvalidDicomError
  | DicomImportException
  | IndexError
  | ValueError.

Inductive result (A : Type) : Type :=
  | Ok (a : A)
  | Err (e : Exception).
Arguments Ok {A} a.
Arguments Err {A} e.

#[global] Instance result_ret : MRet result := @Ok.
#[global] Instance result_bind : MBind result := λ A B f r,
  match r with
  | Ok a => f a
  | Err e => Err e
  end.
#[global] Instance result_fmap : FMap result := λ A B f r,
  match r with
  | Ok a => Ok (f a)
  | Err e => Err e
  end.

#[global] Instance Exception_eq_dec : EqDecision Exception.
Proof. solve_decision. Defined.
#[global] Instance result_eq_dec `{EqDecision A} : EqDecision (result A).
Proof. solve_decision. Defined.

(** What a caller that only looks at returned values sees. *)
Definition returned {A} (r : result A) : option A :=
  match r with
  | Ok a => Some a
  | Err _ => None
  end.

(** ** [list.sort(key=...)]

    Python's sort is stable: elements with equal keys keep their relative
    order.  The model inserts each element in front of the first element of
    the already sorted suffix whose key is not smaller. *)
Section list_sort.
Context {A : Type} (key : A → Z).

Fixpoint insert_by_key (x : A) (l : list A) : list A :=
  match l with
  | [] => [x]
  | y :: l' => if key x <=? key y then x :: l else y :: insert_by_key x l'
  end.

Definition list_sort (l : list A) : list A := foldr insert_by_key [] l.

(** The order the sort establishes. *)
Definition key_le (x y : A) : Prop := key x ≤ key y.
End list_sort.

(** ** pydicom datasets *)

(** A tag is the 32 bit number (group << 16 | element). *)
Abbreviation Tag := N (only parsing).

Definition InstanceNumber : Tag := 0x00200013%N.
Definition SamplesPerPixel : Tag := 0x00280002%N.
Definition RescaleIntercept : Tag := 0x00281052%N.
Definition RescaleSlope : Tag := 0x00281053%N.
Definition PixelData : Tag := 0x7FE00010%N.

(** The value of a data element, as the codec decodes it: integers for the
    IS and US representations, raw bytes for pixel data, text otherwise. *)
Inductive Value : Type :=
  | VInt (n : Z)
  | VBytes (b : list byte)
  | VStr (s : string).

Abbreviation Dataset := (gmap N Value) (only parsing).

(** [FileDataset] as [dcmread] returns it, or the repository's subclass. *)
Inductive DatasetClass : Type :=
  | FileDataset
  | MultiFrameFileDataset.

(** [ds.<keyword>] : the element's value, [AttributeError] when absent. *)
Definition getattr (ds : Dataset) (t : Tag) : result Value :=
  match ds !! t with
  | Some v => Ok v
  | None => Err AttributeError
  end.

(** [ds.get(<keyword>, default)] *)
Definition get_default (ds : Dataset) (t : Tag) (default : Value) : Value :=
  match ds !! t with
  | Some v => v
  | None => default
  end.

(** [del ds.<keyword>] : [AttributeError] when the element is absent. *)
Definition delattr (ds : Dataset) (t : Tag) : result Dataset :=
  match ds !! t with
  | Some _ => Ok (delete t ds)
  | None => Err AttributeError
  end.

(** An integer taking part in an ordering comparison ([<] inside the sort,
    [> 1] in [move_channels_axis]); Python raises [TypeError] when an integer
    is compared with bytes or text. *)
Definition as_int (v : Value) : result Z :=
  match v with
  | VInt n => Ok n
  | _ => Err TypeError
  end.

(** The sort key of [read_dcm_dir]: [lambda ds: ds.get('InstanceNumber', 0)],
    checked to be an integer. *)
Definition instance_key (ds : Dataset) : result Z :=
  as_int (get_default ds InstanceNumber (VInt 0)).

(** [slices.sort(key=...)]: the keys are computed once for every element,
    the (key, element) pairs are sorted on the key, the keys are dropped.
    Python raises [TypeError] when it compares an integer key with one that
    is not; here a key that is not an integer raises at once, which differs
    for a series of one slice or of text keys only: the theorems about the
    sort assume integer keys. *)
Definition sort_by_instance_number (slices : list Dataset) : result (list Dataset) :=
  decorated ← mapM (λ ds, k ← instance_key ds; Ok (k, ds)) slices;
  Ok (snd <$> list_sort fst decorated).

(** The integer the key is, 0 for a dataset without the tag. *)
Definition instance_number (ds : Dataset) : Z :=
  match instance_key ds with
  | Ok n => n
  | Err _ => 0
  end.

Definition has_instance_number (ds : Dataset) : Prop := is_Some (ds !! InstanceNumber).

(** ** numpy arrays

    An [ndarray] is a view: a buffer of samples together with, for every
    axis, its length and its stride (in samples), and the offset of the
    first sample.  Transposing permutes the axes and leaves the buffer
    alone, which is how numpy implements [moveaxis].  Samples are integers
    (the integer dtypes of DICOM pixel data). *)
Module np.

Inductive Dtype : Type :=
  | int8 | uint8 | int16 | uint16 | int32 | uint32.

#[global] Instance Dtype_eq_dec : EqDecision Dtype.
Proof. solve_decision. Defined.

Record ndarray : Type := mk_ndarray {
  dtype : Dtype;
  axes : list (nat * Z);      (* (length, stride) of every axis *)
  offset : Z;
  buffer : list Z;
}.

Definition shape (a : ndarray) : list nat := fst <$> axes a.
Definition strides (a : ndarray) : list Z := snd <$> axes a.
Definition ndim (a : ndarray) : nat := length (axes a).

(** [a[idx]] for a full index tuple: the sample at
    [offset + sum_k idx_k * stride_k]. *)
Definition dot (idx : list nat) (strd : list Z) : Z :=
  foldr Z.add 0 (zip_with (λ (i : nat) (s : Z), Z.of_nat i * s) idx strd).

Definition flat_index (a : ndarray) (idx : list nat) : Z :=
  offset a + dot idx (strides a).

Definition getitem (a : ndarray) (idx : list nat) : option Z :=
  if decide (0 ≤ flat_index a idx) then buffer a !! Z.to_nat (flat_index a idx) else None.

(** [numpy.core.multiarray.normalize_axis_index] *)
Definition normalize_axis_index (axis : Z) (nd : nat) : result nat :=
  if decide (- Z.of_nat nd ≤ axis < Z.of_nat nd)
  then Ok (Z.to_nat (if decide (axis < 0) then axis + Z.of_nat nd else axis))
  else Err AxisError.

(** [list.insert(i, x)] for [0 <= i]. *)
Definition list_insert_at {A} (i : nat) (x : A) (l : list A) : list A :=
  take i l ++ x :: drop i l.

(** A list with its element at position [src] moved to position [dst], the
    others keeping their order: what a relocation of one axis does to the
    axes, and to an index tuple. *)
Definition relocate {A} (src dst : nat) (l : list A) : list A :=
  match l !! src with
  | Some x => list_insert_at dst x (delete src l)
  | None => l
  end.

(** [a.transpose(order)]: axis [k] of the result is axis [order[k]] of [a]. *)
Definition transpose (a : ndarray) (order : list nat) : ndarray :=
  {| dtype := dtype a;
     axes := (λ n, nth n (axes a) (0%nat, 0)) <$> order;
     offset := offset a;
     buffer := buffer a |}.

(** Modelled from the spec: numpy is not under src/.  [moveaxis] relocates
    the axis at [source] to [destination] and keeps the order of the other
    axes; numpy does it, for one source and one destination axis, by
<<
    order = [n for n in range(a.ndim) if n not in source]
    for dest, src in sorted(zip(destination, source)):
        order.insert(dest, src)
    result = transpose(order)
>>
    after normalising both axes (negative axes count from the end). *)
Definition moveaxis_order (nd src dst : nat) : list nat :=
  list_insert_at dst src (filter (λ n, n ≠ src) (seq 0 nd)).

Definition moveaxis (a : ndarray) (source destination : Z) : result ndarray :=
  src ← normalize_axis_index source (ndim a);
  dst ← normalize_axis_index destination (ndim a);
  Ok (transpose a (moveaxis_order (ndim a) src dst)).

(** The element type's width in bytes, and the conversion of a sample to a
    dtype (C integer conversion: reduction modulo 2^bits, read back as
    signed where the dtype is signed). *)
Definition itemsize (d : Dtype) : nat :=
  match d with
  | int8 | uint8 => 1
  | int16 | uint16 => 2
  | int32 | uint32 => 4
  end.

Definition signed (d : Dtype) : bool :=
  match d with
  | int8 | int16 | int32 => true
  | uint8 | uint16 | uint32 => false
  end.

Definition cast (d : Dtype) (z : Z) : Z :=
  let m := 2 ^ (8 * Z.of_nat (itemsize d)) in
  let u := z mod m in
  if signed d && (m / 2 <=? u) then u - m else u.

(** What [astype] does to one sample: nothing when the dtype is kept. *)
Definition convert (from to : Dtype) (z : Z) : Z :=
  if decide (from = to) then z else cast to z.

(** Modelled from the spec: numpy is not under src/.  [a.astype(d,
    copy=False)] is the same object when the dtype already matches;
    otherwise every sample is converted where it stands: the cast does not
    reorder the memory layout, shape and strides are kept. *)
Definition astype (a : ndarray) (d : Dtype) : ndarray :=
  if decide (dtype a = d) then a
  else {| dtype := d; axes := axes a; offset := offset a; buffer := cast d <$> buffer a |}.

(** All index tuples of a shape in C order (last axis fastest). *)
Fixpoint ndindex (shp : list nat) : list (list nat) :=
  match shp with
  | [] => [[]]
  | n :: shp' => i ← seq 0 n; (cons i) <$> ndindex shp'
  end.

Definition byte_of_Z (z : Z) : byte :=
  match Byte.of_N (Z.to_N (z mod 256)) with
  | Some b => b
  | None => Byte.x00
  end.

(** Little endian encoding of one sample on [n] bytes. *)
Fixpoint le_bytes (n : nat) (z : Z) : list byte :=
  match n with
  | O => []
  | S n' => byte_of_Z z :: le_bytes n' (z / 256)
  end.

(** [a.tobytes()] : the samples in C order, whatever the strides. *)
Definition tobytes (a : ndarray) : list byte :=
  idx ← ndindex (shape a);
  match getitem a idx with
  | Some z => le_bytes (itemsize (dtype a)) z
  | None => []
  end.

End np.

(** ** The file system and the I/O monad *)

Abbreviation Path := string (only parsing).

(** What [pydicom.dcmread] makes of a file: a dataset, or a parse failure. *)
Inductive FileContent : Type :=
  | Dicom (ds : Dataset)
  | NotDicom.

(** The world a call runs in: which paths are directories, what a glob
    pattern enumerates in a directory (in the order the file system yields
    the entries), the files, the log of the files parsed so far, and, for
    the paths that cannot be opened for writing (missing directory, no
    permission), the exception the attempt raises. *)
Record World : Type := mk_World {
  is_dir : Path → bool;
  glob : Path → string → list Path;
  files : gmap string FileContent;
  parsed : list Path;
  write_error : Path → option Exception;
}.

Definition log_parsed (p : Path) (w : World) : World :=
  {| is_dir := is_dir w; glob := glob w; files := files w; parsed := parsed w ++ [p];
     write_error := write_error w |}.

Definition write_file (p : Path) (c : FileContent) (w : World) : World :=
  {| is_dir := is_dir w; glob := glob w; files := <[p := c]> (files w); parsed := parsed w;
     write_error := write_error w |}.

(** A computation that may raise and may change the world; what it did to
    the world before raising stays done. *)
Definition IO (A : Type) : Type := World → result A * World.

#[global] Instance IO_ret : MRet IO := λ A a w, (Ok a, w).
#[global] Instance IO_bind : MBind IO := λ A B f m w,
  match m w with
  | (Ok a, w') => f a w'
  | (Err e, w') => (Err e, w')
  end.

Definition lift {A} (r : result A) : IO A := λ w, (r, w).
Definition raise {A} (e : Exception) : IO A := λ w, (Err e, w).

(** [Path(p).is_dir()] *)
Definition path_is_dir (p : Path) : IO bool := λ w, (Ok (is_dir w p), w).

(** [list(Path(d).glob(pattern))] *)
Definition path_glob (d : Path) (pattern : string) : IO (list Path) :=
  λ w, (Ok (glob w d pattern), w).

(** [pydicom.dcmread(filename)] *)
Definition dcmread (filename : Path) : IO Dataset := λ w,
  match files w !! filename with
  | Some (Dicom ds) => (Ok ds, log_parsed filename w)
  | Some NotDicom => (Err InvalidDicomError, w)
  | None => (Err FileNotFoundError, w)
  end.

(** The outcome of [dcmread] alone on the files [fs], and the datasets found
    at some paths. *)
Definition dcmread_result (fs : gmap string FileContent) (filename : Path) : result Dataset :=
  match fs !! filename with
  | Some (Dicom ds) => Ok ds
  | Some NotDicom => Err InvalidDicomError
  | None => Err FileNotFoundError
  end.

Definition datasets_at (fs : gmap string FileContent) (paths : list Path) : list Dataset :=
  omap (λ p, returned (dcmread_result fs p)) paths.

(** [ds.save_as(filename)]: raises what opening the path for writing raises,
    and then writes nothing; otherwise the file becomes the dataset.  The
    file is kept as the dataset handed to the codec: the encoding itself
    (the codec pads values of odd length) is the codec's. *)
Definition save_as (ds : Dataset) (filename : Path) : IO unit :=
  λ w, match write_error w filename with
       | Some e => (Err e, w)
       | None => (Ok (), write_file filename (Dicom ds) w)
       end.

(** ** Collaborators

    What [pdcm_io.py] imports: [str] of a tag and [pixel_array] from pydicom,
    [combine_slices] from dicom_numpy, [convert_ds], [del_intensity_trans]
    and [unpack_dataset] from the rest of the package.  The methods of
    [PdcmIO] are defined over any implementation of them. *)

(** Modelled from the spec: [convert_ds], [del_intensity_trans] and
    [unpack_dataset] belong to medio.metadata.pdcm_ds and
    medio.backends.pdcm_unpack_ds, which are not under src/.  [convert_ds]
    only decides the class of the dataset, as a function of its content, and
    leaves the elements as parsed (the spec's classify, pure and total);
    [del_intensity_trans] is the multi-frame dataset's own removal of its
    intensity transformation; [unpack_dataset] is the Multi-Frame Unpacker,
    which takes the dataset and allow_default_affine. *)
Class Collaborators : Type := {
  Affine : Type;
  str_tag : Tag → string;                                        (* str(key) *)
  pixel_array : Dataset → result np.ndarray;                        (* ds.pixel_array *)
  combine_slices : list Dataset → result (np.ndarray * Affine);     (* dicom_numpy *)
  convert_ds : Dataset → DatasetClass;
  del_intensity_trans : Dataset → result Dataset;
  unpack_dataset : Dataset → bool → result (np.ndarray * Affine);
}.

(** ** MetaData *)

(** Modelled from the spec: medio.metadata.metadata.MetaData is not under
    src/.  It is the value object [{affine, coord_sys, header}] whose header
    is an optional mapping from stringified tags to raw values, absent
    unless attached after construction. *)
Record MetaData `{Collaborators} : Type := mk_MetaData {
  affine : Affine;
  coord_sys : string;
  header : option (gmap string Value);
}.

Definition set_header `{Collaborators} (h : gmap string Value) (m : MetaData) : MetaData :=
  {| affine := affine m; coord_sys := coord_sys m; header := Some h |}.

(** ** PdcmIO *)

Section PdcmIO.
Context `{Collaborators}.

Definition coord_sys_itk : string := "itk".
Definition DEFAULT_CHANNELS_AXIS : Z := 0.

Definition aff2meta (aff : Affine) : MetaData :=
  {| affine := aff; coord_sys := coord_sys_itk; header := None |}.

Definition move_channels_axis (array : np.ndarray) (samples_per_pixel : Z)
    (source : Z) (channels_axis : option Z) : result np.ndarray :=
  if bool_decide (samples_per_pixel > 1) then
    match channels_axis with
    | Some axis => np.moveaxis array source axis
    | None => Ok array
    end
  else Ok array.

(** [{str(key): ds[key] for key in ds.keys()}] *)
Definition header_of (ds : Dataset) : gmap string Value :=
  foldl (λ h kv, <[str_tag kv.1 := kv.2]> h) ∅ (map_to_list ds).

(** [ds.SamplesPerPixel], about to be compared with 1. *)
Definition samples_per_pixel_of (ds : Dataset) : result Z :=
  v ← getattr ds SamplesPerPixel; as_int v.

Definition read_dcm_file (filename : Path) (header : bool)
    (allow_default_affine : bool) (channels_axis : option Z) : IO (np.ndarray * MetaData) :=
  ds ← dcmread filename;
  let cls := convert_ds ds in
  '(img, aff) ← lift (match cls with
                      | MultiFrameFileDataset => unpack_dataset ds allow_default_affine
                      | FileDataset => combine_slices [ds]
                      end);
  let metadata := aff2meta aff in
  let metadata := if header then set_header (header_of ds) metadata else metadata in
  spp ← lift (samples_per_pixel_of ds);
  img ← lift (move_channels_axis img spp DEFAULT_CHANNELS_AXIS channels_axis);
  mret (img, metadata).

(** [slices[0]] *)
Definition first_slice (slices : list Dataset) : result Dataset :=
  match slices with
  | ds :: _ => Ok ds
  | [] => Err IndexError
  end.

Definition read_dcm_dir (input_dir : Path) (globber : string)
    (channels_axis : option Z) : IO (np.ndarray * MetaData) :=
  files ← path_glob input_dir globber;
  if bool_decide (length files = 0%nat) then raise FileNotFoundError else
  slices ← mapM dcmread files;
  slices ← lift (sort_by_instance_number slices);
  '(img, aff) ← lift (combine_slices slices);
  let metadata := aff2meta aff in
  spp ← lift (ds ← first_slice slices; samples_per_pixel_of ds);
  img ← lift (move_channels_axis img spp DEFAULT_CHANNELS_AXIS channels_axis);
  mret (img, metadata).

(** Lines 60 to 63 of [read_dcm_dir], as a function of the sorted slices,
    and lines 59 to 63, as a function of the parsed slices. *)
Definition combine_sorted (slices : list Dataset) (channels_axis : option Z)
    : result (np.ndarray * MetaData) :=
  '(img, aff) ← combine_slices slices;
  let metadata := aff2meta aff in
  spp ← (ds ← first_slice slices; samples_per_pixel_of ds);
  img ← move_channels_axis img spp DEFAULT_CHANNELS_AXIS channels_axis;
  Ok (img, metadata).

Definition combine_series (slices : list Dataset) (channels_axis : option Z)
    : result (np.ndarray * MetaData) :=
  slices ← sort_by_instance_number slices;
  combine_sorted slices channels_axis.

Definition read_img (input_path : Path) (header : bool) (channels_axis : option Z)
    (globber : string) (allow_default_affine : bool) : IO (np.ndarray * MetaData) :=
  d ← path_is_dir input_path;
  if d : bool then read_dcm_dir input_path globber channels_axis
  else read_dcm_file input_path header allow_default_affine channels_axis.

Definition save_arr2dcm_file (output_filename template_filename : Path)
    (img_arr : np.ndarray) (dtype : option np.Dtype) (keep_rescale : bool) : IO unit :=
  ds ← dcmread template_filename;
  let cls := convert_ds ds in
  ds ← lift (if negb keep_rescale then
               match cls with
               | MultiFrameFileDataset => del_intensity_trans ds
               | FileDataset =>
                   ds ← delattr ds RescaleSlope;
                   delattr ds RescaleIntercept
               end
             else Ok ds);
  img_arr ← lift (match dtype with
                  | None => pa ← pixel_array ds; Ok (np.astype img_arr (np.dtype pa))
                  | Some d => Ok (np.astype img_arr d)
                  end);
  let ds := <[PixelData := VBytes (np.tobytes img_arr)]> ds in
  save_as ds output_filename.

(** Lines 90 to 95, lines 96 to 99 and lines 90 to 100 of
    [save_arr2dcm_file], as functions of the parsed template. *)
Definition strip_rescale (ds : Dataset) (keep_rescale : bool) : result Dataset :=
  if negb keep_rescale then
    match convert_ds ds with
    | MultiFrameFileDataset => del_intensity_trans ds
    | FileDataset =>
        ds ← delattr ds RescaleSlope;
        delattr ds RescaleIntercept
    end
  else Ok ds.

Definition cast_pixels (ds : Dataset) (img_arr : np.ndarray) (dtype : option np.Dtype)
    : result np.ndarray :=
  match dtype with
  | None => pa ← pixel_array ds; Ok (np.astype img_arr (np.dtype pa))
  | Some d => Ok (np.astype img_arr d)
  end.

Definition substitute_pixels (ds : Dataset) (img_arr : np.ndarray)
    (dtype : option np.Dtype) (keep_rescale : bool) : result Dataset :=
  ds ← strip_rescale ds keep_rescale;
  img_arr ← cast_pixels ds img_arr dtype;
  Ok (<[PixelData := VBytes (np.tobytes img_arr)]> ds).
End PdcmIO.

(** ** A concrete instance

    Stand-ins for the collaborators and a few files, small enough to run:
    the examples below evaluate [PdcmIO] on them. *)
Module Fixture.

Definition ImagePositionPatient : Tag := 0x00200032%N.
Definition PerFrameFunctionalGroupsSequence : Tag := 0x52009230%N.
Definition PixelValueTransformationSequence : Tag := 0x00289145%N.
Definition PatientName : Tag := 0x00100010%N.

Definition Z_of_byte (b : byte) : Z := Z.of_N (Byte.to_N b).

(** [ds.pixel_array] for one row of 8 bit samples: one sample per byte. *)
Definition row_pixel_array (ds : Dataset) : result np.ndarray :=
  match ds !! PixelData with
  | Some (VBytes b) =>
      Ok {| np.dtype := np.uint8; np.axes := [(length b, 1)];
            np.offset := 0; np.buffer := Z_of_byte <$> b |}
  | Some _ => Err TypeError
  | None => Err AttributeError
  end.

(** Modelled from the spec: dicom_numpy's [combine_slices] is not under src/.
    This is the spec's Series Combiner taken at its word: it fails on an
    empty series, stacks the pixel arrays along a new leading axis in the
    order it is given the slices, and takes the origin of the affine from
    the first slice's position.  It leaves out what dicom_numpy does
    besides: ordering the slices by position and validating their
    geometry (see [Positioned.combine_by_position]). *)
Definition stack_slices (slices : list Dataset)
    : result (np.ndarray * option Value) :=
  match slices with
  | [] => Err DicomImportException
  | first :: _ =>
      arrays ← mapM row_pixel_array slices;
      row ← np.buffer <$> row_pixel_array first;
      Ok ({| np.dtype := np.uint8;
             np.axes := [(length slices, Z.of_nat (length row)); (length row, 1)];
             np.offset := 0;
             np.buffer := concat (np.buffer <$> arrays) |},
          first !! ImagePositionPatient)
  end.

(** Modelled from the spec: the Multi-Frame Unpacker, which fails on missing
    geometry unless a default affine is allowed. *)
Definition unpack_rows (ds : Dataset) (allow_default_affine : bool)
    : result (np.ndarray * option Value) :=
  img ← row_pixel_array ds;
  match ds !! ImagePositionPatient with
  | Some position => Ok (img, Some position)
  | None => if allow_default_affine then Ok (img, None) else Err ValueError
  end.

Definition class_by_content (ds : Dataset) : DatasetClass :=
  if decide (is_Some (ds !! PerFrameFunctionalGroupsSequence))
  then MultiFrameFileDataset else FileDataset.

Definition drop_transformation (ds : Dataset) : result Dataset :=
  Ok (delete PixelValueTransformationSequence ds).

Definition collaborators : Collaborators :=
  {| Affine := option Value;
     str_tag := pretty;
     pixel_array := row_pixel_array;
     combine_slices := stack_slices;
     convert_ds := class_by_content;
     del_intensity_trans := drop_transformation;
     unpack_dataset := unpack_rows |}.

(** A single-frame slice: one row of pixels, with or without an instance
    number. *)
Definition slice (number : option Z) (samples : Z) (pixels : list byte) : Dataset :=
  let ds : Dataset :=
    <[SamplesPerPixel := VInt samples]> (<[PixelData := VBytes pixels]> ∅) in
  match number with
  | Some n => <[InstanceNumber := VInt n]> ds
  | None => ds
  end.

Definition with_rescale (ds : Dataset) : Dataset :=
  <[RescaleSlope := VStr "2"]> (<[RescaleIntercept := VStr "-1024"]> ds).

(** A world with one directory, "series", whose entries a glob enumerates
    as [listing]. *)
Definition world (fs : gmap string FileContent) (listing : list Path) : World :=
  {| is_dir := λ p, bool_decide (p = "series");
     glob := λ d _, if bool_decide (d = "series") then listing else [];
     files := fs;
     parsed := [];
     write_error := λ _, None |}.

Definition untagged_a : Dataset := slice None 1 [Byte.x01; Byte.x02].
Definition untagged_b : Dataset := slice None 1 [Byte.x03; Byte.x04].
Definition numbered_1 : Dataset := slice (Some 1) 1 [Byte.x05; Byte.x06].
Definition numbered_2 : Dataset := slice (Some 2) 1 [Byte.x07; Byte.x08].
Definition numbered_neg : Dataset := slice (Some (-1)) 1 [Byte.x09; Byte.x0a].

Definition untagged_files : gmap string FileContent :=
  <["series/a" := Dicom untagged_a]> (<["series/b" := Dicom untagged_b]> ∅).

Definition numbered_files : gmap string FileContent :=
  <["series/a" := Dicom numbered_2]> (<["series/b" := Dicom numbered_1]> ∅).

Definition mixed_files : gmap string FileContent :=
  <["series/a" := Dicom untagged_a]> (<["series/b" := Dicom numbered_neg]> ∅).

Definition listing_ab : list Path := ["series/a"; "series/b"].
Definition listing_ba : list Path := ["series/b"; "series/a"].

(** Templates for the write path: a single-frame one with and without the
    rescale tags, and a multi-frame one. *)
Definition template : Dataset :=
  <[PatientName := VStr "DOE^JANE"]> (with_rescale numbered_1).

Definition bare_template : Dataset :=
  <[PatientName := VStr "DOE^JANE"]> numbered_1.

Definition multiframe_template : Dataset :=
  <[PerFrameFunctionalGroupsSequence := VStr "frames"]>
    (<[PixelValueTransformationSequence := VStr "transformation"]> template).

Definition template_files : gmap string FileContent :=
  <["template.dcm" := Dicom template]>
    (<["bare.dcm" := Dicom bare_template]>
       (<["multi.dcm" := Dicom multiframe_template]> ∅)).

(** A 2 x 3 image of 16 bit samples, in C order. *)
Definition image : np.ndarray :=
  {| np.dtype := np.int16; np.axes := [(2%nat, 3); (3%nat, 1)];
     np.offset := 0; np.buffer := [1; 2; 3; 4; 5; 300] |}.

End Fixture.

(** ** Further views of the methods *)



Section PdcmIO_views.
Context `{Collaborators}.

(** Lines 41 to 44 of [read_dcm_file]: the volume of one parsed file. *)
Definition file_volume (ds : Dataset) (allow_default_affine : bool)
    : result (np.ndarray * Affine) :=
  match convert_ds ds with
  | MultiFrameFileDataset => unpack_dataset ds allow_default_affine
  | FileDataset => combine_slices [ds]
  end.

(** Lines 40 to 49 of [read_dcm_file], as a function of the parsed dataset. *)
Definition read_parsed_file (ds : Dataset) (header : bool)
    (allow_default_affine : bool) (channels_axis : option Z)
    : result (np.ndarray * MetaData) :=
  '(img, aff) ← file_volume ds allow_default_affine;
  let metadata := aff2meta aff in
  let metadata := if header then set_header (header_of ds) metadata else metadata in
  spp ← samples_per_pixel_of ds;
  img ← move_channels_axis img spp DEFAULT_CHANNELS_AXIS channels_axis;
  Ok (img, metadata).
End PdcmIO_views.

(** More files for the examples: a slice without SamplesPerPixel, a file
    that is not DICOM. *)
Module Cases.

Definition no_samples : Dataset :=
  <[InstanceNumber := VInt 1]> (<[PixelData := VBytes [Byte.x01; Byte.x02]]> ∅).

Definition broken_files : gmap string FileContent :=
  <["series/a" := Dicom Fixture.numbered_1]>
    (<["series/b" := NotDicom]>
       (<["series/c" := Dicom Fixture.numbered_2]>
          (<["series/d" := Dicom no_samples]> ∅))).

Definition listing_abc : list Path := ["series/a"; "series/b"; "series/c"].


(** An image with three samples per pixel, channels first: 3 x 2. *)
Definition rgb : np.ndarray :=
  {| np.dtype := np.uint8; np.axes := [(3%nat, 2); (2%nat, 1)];
     np.offset := 0; np.buffer := [10; 11; 20; 21; 30; 31] |}.

End Cases.

(** A combiner that orders the slices itself, as dicom_numpy does: it
    rejects a series that is empty, has a slice without position, two
    slices at one position or slices that disagree on SamplesPerPixel, and
    stacks the others in ascending order of position, whatever the order it
    is given them in.  Positions are along the slice normal, as integers. *)
Module Positioned.

Definition slice_position (ds : Dataset) : option Z :=
  match ds !! Fixture.ImagePositionPatient with
  | Some (VInt z) => Some z
  | _ => None
  end.

Definition samples (ds : Dataset) : option Z :=
  match ds !! SamplesPerPixel with
  | Some (VInt n) => Some n
  | _ => None
  end.

Definition position_key (ds : Dataset) : Z := default 0 (slice_position ds).

Definition uniform_grid (slices : list Dataset) : Prop :=
  slices ≠ []
  ∧ Forall (λ ds, is_Some (slice_position ds)) slices
  ∧ NoDup (slice_position <$> slices)
  ∧ Forall (λ a, is_Some (samples a) ∧ Forall (λ b, samples a = samples b) slices)
           slices.

#[global] Instance uniform_grid_dec slices : Decision (uniform_grid slices).
Proof. unfold uniform_grid. apply _. Defined.

Definition combine_by_position (slices : list Dataset)
    : result (np.ndarray * option Value) :=
  if decide (uniform_grid slices)
  then Fixture.stack_slices (list_sort position_key slices)
  else Err DicomImportException.

Definition collaborators : Collaborators :=
  {| Affine := option Value;
     str_tag := pretty;
     pixel_array := Fixture.row_pixel_array;
     combine_slices := combine_by_position;
     convert_ds := Fixture.class_by_content;
     del_intensity_trans := Fixture.drop_transformation;
     unpack_dataset := Fixture.unpack_rows |}.

(** Two slices without instance number, at positions 10 and 20. *)
Definition at_position (z : Z) (ds : Dataset) : Dataset :=
  <[Fixture.ImagePositionPatient := VInt z]> ds.

Definition lower : Dataset := at_position 10 Fixture.untagged_b.
Definition upper : Dataset := at_position 20 Fixture.untagged_a.

Definition untagged_files : gmap string FileContent :=
  <["series/a" := Dicom upper]> (<["series/b" := Dicom lower]> ∅).

End Positioned.

(** * Properties *)

(** ** The stable sort *)

Section list_sort_facts.
Context {A : Type} (key : A → Z).

Lemma insert_by_key_perm x l : insert_by_key key x l ≡ₚ x :: l.
Proof.
  induction l as [|y l IH]; simpl; [done|].
  destruct (key x <=? key y); [done|].
  rewrite IH. apply Permutation_swap.
Qed.

Lemma list_sort_perm l : list_sort key l ≡ₚ l.
Proof.
  induction l as [|x l IH]; simpl; [done|].
  by rewrite insert_by_key_perm, IH.
Qed.

Lemma insert_by_key_sorted x l :
  StronglySorted (key_le key) l → StronglySorted (key_le key) (insert_by_key key x l).
Proof.
  induction 1 as [|y l Hl IH Hy]; simpl.
  - repeat constructor.
  - destruct (Z.leb_spec (key x) (key y)) as [Hxy|Hxy].
    + constructor; [by constructor|].
      constructor; [done|].
      eapply Forall_impl; [exact Hy|]. unfold key_le. intros z Hz. simpl in *. lia.
    + constructor; [done|].
      rewrite insert_by_key_perm. constructor; [|done]. unfold key_le. lia.
Qed.

Lemma list_sort_sorted l : StronglySorted (key_le key) (list_sort key l).
Proof.
  induction l as [|x l IH]; simpl; [constructor|].
  by apply insert_by_key_sorted.
Qed.

Lemma insert_by_key_filter (P : A → Prop) `{∀ x, Decision (P x)} x l :
  (∀ y z, P y → P z → key y = key z) →
  filter P (insert_by_key key x l) = filter P (x :: l).
Proof.
  intros HP. induction l as [|y l IH]; simpl; [done|].
  destruct (Z.leb_spec (key x) (key y)) as [Hxy|Hxy]; [done|].
  rewrite !filter_cons in *.
  destruct (decide (P y)) as [Hy|Hy], (decide (P x)) as [Hx|Hx];
    rewrite ?IH; try done.
  specialize (HP _ _ Hx Hy). lia.
Qed.

(** Stability: the elements of one key class keep their relative order. *)
Lemma list_sort_filter (P : A → Prop) `{∀ x, Decision (P x)} l :
  (∀ y z, P y → P z → key y = key z) →
  filter P (list_sort key l) = filter P l.
Proof.
  intros HP. induction l as [|x l IH]; simpl; [done|].
  rewrite insert_by_key_filter by done.
  by rewrite !filter_cons, IH.
Qed.

(** Two sorted arrangements of the same elements coincide as soon as
    elements with equal keys are equal. *)
Lemma sorted_perm_eq l1 l2 :
  StronglySorted (key_le key) l1 → StronglySorted (key_le key) l2 → l1 ≡ₚ l2 →
  (∀ x y, x ∈ l1 → y ∈ l1 → key x = key y → x = y) →
  l1 = l2.
Proof.
  intros Hs1. revert l2. induction Hs1 as [|x l1 Hl1 IH Hx]; intros l2 Hs2 Hp Hkey.
  - by apply Permutation_nil_l in Hp.
  - destruct Hs2 as [|y l2 Hl2 Hy].
    { by apply Permutation_nil_r in Hp. }
    assert (x = y) as ->.
    { assert (x ∈ y :: l2) as Hin1 by (rewrite <-Hp; left).
      assert (y ∈ x :: l1) as Hin2 by (rewrite Hp; left).
      apply Hkey; [left|done|].
      apply elem_of_cons in Hin1 as [->|Hin1]; [done|].
      apply elem_of_cons in Hin2 as [->|Hin2]; [done|].
      rewrite Forall_forall in Hx, Hy.
      specialize (Hx _ Hin2). specialize (Hy _ Hin1). unfold key_le in *. lia. }
    f_equal. apply IH; [done|by apply Permutation_cons_inv in Hp|].
    intros a b Ha Hb. apply Hkey; by right.
Qed.

Lemma list_sort_perm_eq l1 l2 :
  l1 ≡ₚ l2 →
  (∀ x y, x ∈ l1 → y ∈ l1 → key x = key y → x = y) →
  list_sort key l1 = list_sort key l2.
Proof.
  intros Hp Hkey. apply sorted_perm_eq; try apply list_sort_sorted.
  - by rewrite !list_sort_perm.
  - intros x y Hx Hy. rewrite list_sort_perm in Hx, Hy. by apply Hkey.
Qed.

(** Sorting the decorated list on the key and dropping the keys is sorting
    on the key. *)
Lemma list_sort_decorated_aux l :
  list_sort fst ((λ y, (key y, y)) <$> l) = (λ y, (key y, y)) <$> list_sort key l.
Proof.
  unfold list_sort. induction l as [|x l IH]; csimpl; [done|].
  rewrite IH. clear IH. generalize (foldr (insert_by_key key) [] l) as s. intros s.
  induction s as [|y s IHs]; csimpl; [done|].
  destruct (key x <=? key y); csimpl; [done|]. by rewrite IHs.
Qed.

Lemma list_sort_decorated l :
  snd <$> list_sort fst ((λ y, (key y, y)) <$> l) = list_sort key l.
Proof.
  rewrite list_sort_decorated_aux, <-list_fmap_compose. apply list_fmap_id.
Qed.
End list_sort_facts.

(** ** The result monad and [mapM] *)

Lemma bind_Ok {A B} (f : A → result B) (a : A) : Ok a ≫= f = f a.
Proof. done. Qed.

Lemma bind_Err {A B} (f : A → result B) (e : Exception) : Err e ≫= f = Err e.
Proof. done. Qed.

Lemma returned_Some {A} (r : result A) (a : A) : returned r = Some a ↔ r = Ok a.
Proof. destruct r; simpl; split; congruence. Qed.

Lemma returned_None {A} (r : result A) : returned r = None ↔ ∃ e, r = Err e.
Proof. destruct r; simpl; split; try done; [by intros [? ?]|by eauto]. Qed.

(** [mapM] succeeds exactly when every element converts, and then collects
    the converted elements in order. *)
Lemma mapM_result_Ok_iff {A B} (d : B) (f : A → result B) (l : list A) (ys : list B) :
  mapM f l = Ok ys ↔
  Forall (λ x, is_Some (returned (f x))) l ∧ ys = (λ x, default d (returned (f x))) <$> l.
Proof.
  revert ys. induction l as [|x l IH]; intros ys; csimpl.
  - split; [intros [= <-]; by split|intros [_ ->]; done].
  - rewrite Forall_cons.
    destruct (f x) as [y|e] eqn:Hx; simpl.
    + destruct (mapM f l) as [zs|e']; simpl.
      * destruct (IH zs) as [[IH1 IH2] _]; [done|]. rewrite <-IH2.
        split; [intros [= <-]; by repeat split|by intros [_ ->]].
      * split; [done|]. intros [[_ HF] ->].
        destruct (IH ((λ x, default d (returned (f x))) <$> l)) as [_ IH2].
        by specialize (IH2 (conj HF eq_refl)).
    + split; [done|]. by intros [[[? ?] _] _].
Qed.

Lemma mapM_result_perm {A B} (d : B) (f : A → result B) (l1 l2 : list A) (ys1 : list B) :
  l1 ≡ₚ l2 → mapM f l1 = Ok ys1 → ∃ ys2, mapM f l2 = Ok ys2 ∧ ys1 ≡ₚ ys2.
Proof.
  intros Hp [HF ->]%(mapM_result_Ok_iff d).
  exists ((λ x, default d (returned (f x))) <$> l2). split.
  - apply (mapM_result_Ok_iff d). split; [by rewrite <-Hp|done].
  - by rewrite Hp.
Qed.

(** ** Sorting on the instance number *)

Lemma instance_key_number (ds : Dataset) :
  is_Some (returned (instance_key ds)) → instance_key ds = Ok (instance_number ds).
Proof. unfold instance_number. destruct (instance_key ds); [done|]. by intros [? ?]. Qed.

Lemma instance_number_absent (ds : Dataset) :
  ds !! InstanceNumber = None → instance_key ds = Ok 0.
Proof. unfold instance_key, get_default. by intros ->. Qed.

Lemma sort_by_instance_number_Ok (slices sorted : list Dataset) :
  sort_by_instance_number slices = Ok sorted ↔
  Forall (λ ds, is_Some (returned (instance_key ds))) slices
  ∧ sorted = list_sort instance_number slices.
Proof.
  unfold sort_by_instance_number.
  set (decorate := λ ds : Dataset, k ← instance_key ds; Ok (k, ds)).
  assert (∀ ds, is_Some (returned (decorate ds)) ↔ is_Some (returned (instance_key ds))) as Hsome.
  { intros ds. unfold decorate.
    destruct (instance_key ds); simpl; [split; by eexists|split; by intros [? ?]]. }
  assert (∀ l, Forall (λ ds, is_Some (returned (instance_key ds))) l →
               (λ ds, default (0, ∅) (returned (decorate ds))) <$> l
               = (λ ds, (instance_number ds, ds)) <$> l) as Hfmap.
  { intros l Hl. apply Forall_fmap_ext. eapply Forall_impl; [exact Hl|].
    intros ds Hds. simpl. unfold decorate. by rewrite (instance_key_number ds Hds). }
  destruct (mapM decorate slices) as [decorated|e] eqn:Hm.
  - apply (mapM_result_Ok_iff (0, ∅)) in Hm as [HF ->].
    assert (Forall (λ ds, is_Some (returned (instance_key ds))) slices) as HF'.
    { eapply Forall_impl; [exact HF|]. intros ds. apply Hsome. }
    rewrite bind_Ok, Hfmap, list_sort_decorated by done.
    split; [intros [= <-]; by split|by intros [_ ->]].
  - rewrite bind_Err. split; [done|]. intros [HF _].
    assert (mapM decorate slices = Ok ((λ ds, default (0, ∅) (returned (decorate ds))) <$> slices)).
    { apply (mapM_result_Ok_iff (0, ∅)). split; [|done].
      eapply Forall_impl; [exact HF|]. intros ds. apply Hsome. }
    congruence.
Qed.

Lemma NoDup_fmap_eq {A B} (f : A → B) (l : list A) (x y : A) :
  NoDup (f <$> l) → x ∈ l → y ∈ l → f x = f y → x = y.
Proof.
  induction l as [|z l IH]; csimpl; [by intros _ ?%elem_of_nil|].
  intros [Hz Hl]%NoDup_cons [->|Hx]%elem_of_cons [->|Hy]%elem_of_cons Hxy; try done.
  - destruct Hz. rewrite Hxy. by apply list_elem_of_fmap_2.
  - destruct Hz. rewrite <-Hxy. by apply list_elem_of_fmap_2.
  - by apply IH.
Qed.

Lemma sort_by_instance_number_perm (l1 l2 : list Dataset) :
  l1 ≡ₚ l2 → NoDup (instance_key <$> l1) →
  returned (sort_by_instance_number l1) = returned (sort_by_instance_number l2).
Proof.
  intros Hp Hnd.
  destruct (sort_by_instance_number l1) as [s1|e1] eqn:H1,
           (sort_by_instance_number l2) as [s2|e2] eqn:H2; simpl; try done.
  - apply sort_by_instance_number_Ok in H1 as [HF1 ->].
    apply sort_by_instance_number_Ok in H2 as [HF2 ->].
    f_equal. apply list_sort_perm_eq; [done|].
    intros x y Hx Hy Hxy. apply (NoDup_fmap_eq instance_key l1); try done.
    rewrite Forall_forall in HF1.
    by rewrite !instance_key_number, Hxy by auto.
  - apply sort_by_instance_number_Ok in H1 as [HF1 ->]. rewrite Hp in HF1.
    assert (sort_by_instance_number l2 = Ok (list_sort instance_number l2)) as Hs
      by (by apply sort_by_instance_number_Ok).
    congruence.
  - apply sort_by_instance_number_Ok in H2 as [HF2 ->]. rewrite <-Hp in HF2.
    assert (sort_by_instance_number l1 = Ok (list_sort instance_number l1)) as Hs
      by (by apply sort_by_instance_number_Ok).
    congruence.
Qed.

Lemma returned_bind {A B} (r1 r2 : result A) (k : A → result B) :
  returned r1 = returned r2 → returned (r1 ≫= k) = returned (r2 ≫= k).
Proof. destruct r1, r2; simpl; congruence. Qed.

(** ** The read path *)

Lemma IO_bind_unfold {A B} (m : IO A) (f : A → IO B) (w : World) :
  (m ≫= f) w = match m w with
               | (Ok a, w') => f a w'
               | (Err e, w') => (Err e, w')
               end.
Proof. done. Qed.

Lemma mapM_IO_cons {A B} (f : A → IO B) (x : A) (l : list A) :
  mapM f (x :: l) = y ← f x; k ← mapM f l; mret (y :: k).
Proof. done. Qed.

Lemma mapM_result_cons {A B} (f : A → result B) (x : A) (l : list A) :
  mapM f (x :: l) = y ← f x; k ← mapM f l; mret (y :: k).
Proof. done. Qed.

Lemma datasets_at_mapM (fs : gmap string FileContent) (paths : list Path) (slices : list Dataset) :
  mapM (dcmread_result fs) paths = Ok slices → datasets_at fs paths = slices.
Proof.
  intros [HF ->]%(mapM_result_Ok_iff ∅). unfold datasets_at.
  induction HF as [|p paths [ds Hp] _ IH]; csimpl; [done|].
  by rewrite Hp, IH.
Qed.

Section read_facts.
Context `{Collaborators}.

Lemma dcmread_spec filename w :
  ∃ w', dcmread filename w = (dcmread_result (files w) filename, w')
        ∧ files w' = files w ∧ is_dir w' = is_dir w ∧ glob w' = glob w.
Proof.
  unfold dcmread, dcmread_result.
  destruct (files w !! filename) as [[ds|]|]; eauto.
Qed.


Lemma mapM_dcmread paths w :
  ∃ w', mapM dcmread paths w = (mapM (dcmread_result (files w)) paths, w')
        ∧ files w' = files w ∧ is_dir w' = is_dir w ∧ glob w' = glob w.
Proof.
  revert w. induction paths as [|p paths IH]; intros w.
  - by exists w.
  - rewrite mapM_IO_cons, mapM_result_cons. rewrite IO_bind_unfold.
    destruct (dcmread_spec p w) as (w1 & -> & Hf1 & Hd1 & Hg1).
    destruct (dcmread_result (files w) p) as [ds|e]; [|by eauto]. rewrite bind_Ok.
    rewrite IO_bind_unfold.
    destruct (IH w1) as (w2 & -> & Hf2 & Hd2 & Hg2).
    rewrite Hf1.
    exists w2. destruct (mapM (dcmread_result (files w)) paths); simpl;
      repeat split; congruence.
Qed.

Lemma read_dcm_dir_spec input_dir globber channels_axis w :
  glob w input_dir globber ≠ [] →
  ∃ w', read_dcm_dir input_dir globber channels_axis w
        = (mapM (dcmread_result (files w)) (glob w input_dir globber)
             ≫= λ slices, combine_series slices channels_axis, w')
        ∧ files w' = files w.
Proof.
  intros Hne. unfold read_dcm_dir, path_glob.
  rewrite IO_bind_unfold.
  rewrite bool_decide_eq_false_2 by (by destruct (glob w input_dir globber)).
  rewrite IO_bind_unfold.
  destruct (mapM_dcmread (glob w input_dir globber) w) as (w' & -> & Hf & _).
  exists w'. split; [|done].
  destruct (mapM (dcmread_result (files w)) (glob w input_dir globber)) as [slices|e]; [|done].
  rewrite bind_Ok. unfold combine_series, combine_sorted, lift.
  rewrite IO_bind_unfold.
  destruct (sort_by_instance_number slices) as [sorted|e]; [|done]. rewrite bind_Ok.
  rewrite IO_bind_unfold.
  destruct (combine_slices sorted) as [[img aff]|e]; [|done]. rewrite bind_Ok.
  rewrite IO_bind_unfold.
  destruct (first_slice sorted ≫= _) as [spp|e]; [|done]. rewrite bind_Ok.
  rewrite IO_bind_unfold.
  destruct (move_channels_axis _ _ _ _) as [img'|e]; done.
Qed.
End read_facts.

Section read_claims.
Context `{Collaborators}.

Lemma read_img_dir input_path header channels_axis globber allow_default_affine w :
  is_dir w input_path = true →
  read_img input_path header channels_axis globber allow_default_affine w
  = read_dcm_dir input_path globber channels_axis w.
Proof. intros Hd. unfold read_img, path_is_dir. rewrite IO_bind_unfold. by rewrite Hd. Qed.

Lemma read_img_file input_path header channels_axis globber allow_default_affine w :
  is_dir w input_path = false →
  read_img input_path header channels_axis globber allow_default_affine w
  = read_dcm_file input_path header allow_default_affine channels_axis w.
Proof. intros Hd. unfold read_img, path_is_dir. rewrite IO_bind_unfold. by rewrite Hd. Qed.

Lemma read_dcm_dir_empty input_dir globber channels_axis w :
  glob w input_dir globber = [] →
  read_dcm_dir input_dir globber channels_axis w = (Err FileNotFoundError, w).
Proof.
  intros Hg. unfold read_dcm_dir, path_glob. rewrite IO_bind_unfold. by rewrite Hg.
Qed.

Lemma combine_series_perm (l1 l2 : list Dataset) channels_axis :
  l1 ≡ₚ l2 → NoDup (instance_key <$> l1) →
  returned (combine_series l1 channels_axis) = returned (combine_series l2 channels_axis).
Proof.
  intros Hp Hnd. unfold combine_series.
  apply returned_bind. by apply sort_by_instance_number_perm.
Qed.

(** X22: for every combiner, a directory read returns the same volume
    array and metadata for any two enumeration orders of the same files,
    provided the instance-number sort keys of the series (0 for a dataset
    without the tag) are pairwise distinct: the sort then fixes the order in
    which the slices are handed to the combiner. *)
Theorem read_img_dir_enumeration_order (w1 w2 : World) (input_path : Path)
    (header : bool) (channels_axis : option Z) (globber : string)
    (allow_default_affine : bool) :
  is_dir w1 input_path = true →
  is_dir w2 input_path = true →
  files w1 = files w2 →
  glob w1 input_path globber ≡ₚ glob w2 input_path globber →
  NoDup (instance_key <$> datasets_at (files w1) (glob w1 input_path globber)) →
  returned (read_img input_path header channels_axis globber allow_default_affine w1).1
  = returned (read_img input_path header channels_axis globber allow_default_affine w2).1.
Proof.
  intros Hd1 Hd2 Hfs Hp Hnd. rewrite !read_img_dir by done.
  destruct (decide (glob w1 input_path globber = [])) as [Hnil|Hne].
  { rewrite Hnil in Hp. apply Permutation_nil_l in Hp.
    by rewrite !read_dcm_dir_empty. }
  assert (glob w2 input_path globber ≠ []) as Hne2.
  { intros Hnil. rewrite Hnil in Hp. by apply Permutation_nil_r in Hp. }
  destruct (read_dcm_dir_spec input_path globber channels_axis w1 Hne) as (w1' & -> & _).
  destruct (read_dcm_dir_spec input_path globber channels_axis w2 Hne2) as (w2' & -> & _).
  simpl. rewrite <-Hfs.
  destruct (mapM (dcmread_result (files w1)) (glob w1 input_path globber)) as [s1|e1] eqn:H1,
           (mapM (dcmread_result (files w1)) (glob w2 input_path globber)) as [s2|e2] eqn:H2;
    rewrite ?bind_Ok, ?bind_Err; simpl; try done.
  - destruct (mapM_result_perm ∅ _ _ _ _ Hp H1) as (s2' & Hs2 & Hps).
    assert (s2' = s2) as -> by congruence.
    apply combine_series_perm; [done|].
    by rewrite <-(datasets_at_mapM _ _ _ H1).
  - destruct (mapM_result_perm ∅ _ _ _ _ Hp H1) as (s2' & Hs2 & _). congruence.
  - symmetry in Hp.
    destruct (mapM_result_perm ∅ _ _ _ _ Hp H2) as (s1' & Hs1 & _). congruence.
Qed.

(** C3: a directory read whose glob pattern matches no file raises
    [FileNotFoundError] (the spec's EmptyInputError), returns no result and
    leaves the world as it found it: no file has been parsed. *)
Theorem read_img_empty_directory (w : World) (input_path : Path)
    (header : bool) (channels_axis : option Z) (globber : string)
    (allow_default_affine : bool) :
  is_dir w input_path = true →
  glob w input_path globber = [] →
  read_img input_path header channels_axis globber allow_default_affine w
  = (Err FileNotFoundError, w)
  ∧ parsed (read_img input_path header channels_axis globber allow_default_affine w).2
    = parsed w
  ∧ returned (read_img input_path header channels_axis globber allow_default_affine w).1
    = None.
Proof.
  intros Hd Hg. rewrite read_img_dir, read_dcm_dir_empty by done. done.
Qed.
End read_claims.

Lemma StronglySorted_lookup_lt {A} (R : relation A) (l : list A) (i j : nat) (a b : A) :
  StronglySorted R l → l !! i = Some a → l !! j = Some b → (i < j)%nat → R a b.
Proof.
  intros Hs. revert i j. induction Hs as [|x l _ IH Hx]; intros i j Hi Hj Hlt.
  - by rewrite lookup_nil in Hi.
  - destruct j as [|j]; [lia|]. simpl in Hj. destruct i as [|i]; simpl in Hi.
    + simplify_eq. rewrite Forall_forall in Hx. apply Hx.
      by eapply list_elem_of_lookup_2.
    + apply (IH i j); [done|done|lia].
Qed.

Section sorted_series.
Context `{Collaborators}.

(** C2 (amended): in a directory read the parsed datasets are sorted before
    they are combined: what is handed to the combiner is a rearrangement of
    the parsed datasets in ascending order of the instance number, a dataset
    without the tag counting as 0; the sort is stable, so the datasets
    without the tag keep their relative order; they come before every dataset
    whose instance number is positive. *)
Theorem read_img_dir_sorted_series (w : World) (input_path : Path)
    (header : bool) (channels_axis : option Z) (globber : string)
    (allow_default_affine : bool) (slices : list Dataset) :
  is_dir w input_path = true →
  glob w input_path globber ≠ [] →
  mapM (dcmread_result (files w)) (glob w input_path globber) = Ok slices →
  Forall (λ ds, is_Some (returned (instance_key ds))) slices →
  let series := list_sort instance_number slices in
  (read_img input_path header channels_axis globber allow_default_affine w).1
  = combine_sorted series channels_axis
  ∧ series ≡ₚ slices
  ∧ StronglySorted (key_le instance_number) series
  ∧ (∀ k, filter (λ ds, instance_number ds = k) series
          = filter (λ ds, instance_number ds = k) slices)
  ∧ filter (λ ds, ds !! InstanceNumber = None) series
    = filter (λ ds, ds !! InstanceNumber = None) slices
  ∧ (∀ i j a b, series !! i = Some a → series !! j = Some b →
       a !! InstanceNumber = None → 0 < instance_number b → (i < j)%nat).
Proof.
  intros Hd Hne Hparse Hkeys series.
  assert (∀ ds : Dataset, ds !! InstanceNumber = None → instance_number ds = 0) as Habsent.
  { intros ds Hds. unfold instance_number. by rewrite instance_number_absent. }
  split; [|split; [|split; [|split; [|split]]]].
  - rewrite read_img_dir by done.
    destruct (read_dcm_dir_spec input_path globber channels_axis w Hne) as (w' & -> & _).
    simpl. rewrite Hparse, bind_Ok. unfold combine_series.
    assert (sort_by_instance_number slices = Ok series) as ->
      by (by apply sort_by_instance_number_Ok).
    by rewrite bind_Ok.
  - apply list_sort_perm.
  - apply list_sort_sorted.
  - intros k. apply list_sort_filter. congruence.
  - apply list_sort_filter. intros y z Hy Hz. by rewrite !Habsent.
  - intros i j a b Hi Hj Ha Hb.
    destruct (decide (i < j)%nat) as [|Hij]; [done|]. exfalso.
    apply Habsent in Ha.
    destruct (decide (i = j)) as [->|Hne'].
    + assert (a = b) as -> by congruence. lia.
    + assert (key_le instance_number b a) as Hle.
      { apply (StronglySorted_lookup_lt _ series j i); try done.
        - apply list_sort_sorted.
        - lia. }
      unfold key_le in Hle. lia.
Qed.
End sorted_series.

(** ** The header *)

Section header_claims.
Context `{Collaborators}.

Lemma header_fold_lookup (l : list (N * Value)) (acc : gmap string Value) (k : N) :
  Inj (=) (=) str_tag → NoDup l.*1 →
  foldl (λ h kv, <[str_tag kv.1 := kv.2]> h) acc l !! str_tag k
  = match (list_to_map l : gmap N Value) !! k with
    | Some v => Some v
    | None => acc !! str_tag k
    end.
Proof.
  intros Hinj. revert acc. induction l as [|[k0 v0] l IH]; intros acc Hnd; csimpl.
  - by rewrite lookup_empty.
  - apply NoDup_cons in Hnd as [Hk0 Hnd]. rewrite IH by done.
    destruct (decide (k = k0)) as [->|Hne].
    + rewrite lookup_insert_eq.
      rewrite (not_elem_of_list_to_map_1 (M:=gmap N)) by done.
      by rewrite lookup_insert_eq.
    + rewrite (lookup_insert_ne _ k0 k) by done.
      rewrite (lookup_insert_ne acc (str_tag k0) (str_tag k)); [done|].
      intros Heq. by apply Hinj in Heq.
Qed.

Lemma header_fold_keys (l : list (N * Value)) (acc : gmap string Value) (s : string) :
  is_Some (foldl (λ h kv, <[str_tag kv.1 := kv.2]> h) acc l !! s) →
  is_Some (acc !! s) ∨ ∃ k, k ∈ l.*1 ∧ s = str_tag k.
Proof.
  revert acc. induction l as [|[k0 v0] l IH]; intros acc; csimpl; [by left|].
  intros [Hacc|(k & Hk & ->)]%IH.
  - destruct (decide (s = str_tag k0)) as [->|Hne].
    + right. exists k0. split; [left|done].
    + left. by rewrite lookup_insert_ne in Hacc.
  - right. exists k. split; [by right|done].
Qed.

(** The header holds, under the string of every tag of the dataset, the
    element of that tag, and nothing else. *)
Lemma header_of_lookup (ds : Dataset) (k : N) :
  Inj (=) (=) str_tag → header_of ds !! str_tag k = ds !! k.
Proof.
  intros Hinj. unfold header_of.
  rewrite header_fold_lookup by (done || apply NoDup_fst_map_to_list).
  rewrite list_to_map_to_list, lookup_empty. by destruct (ds !! k).
Qed.

Lemma header_of_keys (ds : Dataset) (s : string) :
  is_Some (header_of ds !! s) → ∃ k, is_Some (ds !! k) ∧ s = str_tag k.
Proof.
  intros [Hempty|(k & Hk & ->)]%header_fold_keys.
  - rewrite lookup_empty in Hempty. by destruct Hempty.
  - exists k. split; [|done].
    apply list_elem_of_fmap in Hk as ([k' v] & -> & Hkv).
    apply elem_of_map_to_list in Hkv. by eexists.
Qed.

Lemma read_dcm_file_header filename want_header allow_default_affine channels_axis w img md w' :
  read_dcm_file filename want_header allow_default_affine channels_axis w = (Ok (img, md), w') →
  ∃ ds, dcmread_result (files w) filename = Ok ds
        ∧ header md = if want_header then Some (header_of ds) else None.
Proof.
  unfold read_dcm_file. rewrite IO_bind_unfold.
  destruct (dcmread_spec filename w) as (w1 & -> & _).
  destruct (dcmread_result (files w) filename) as [ds|e]; [|done].
  intros Hrun. exists ds. split; [done|]. revert Hrun.
  unfold lift. rewrite IO_bind_unfold.
  destruct (match convert_ds ds with
            | FileDataset => combine_slices [ds]
            | MultiFrameFileDataset => unpack_dataset ds allow_default_affine
            end) as [[img0 aff]|e]; [|done].
  rewrite IO_bind_unfold.
  destruct (samples_per_pixel_of ds) as [spp|e]; [|done].
  rewrite IO_bind_unfold.
  destruct (move_channels_axis img0 spp DEFAULT_CHANNELS_AXIS channels_axis) as [img1|e];
    [|done].
  intros [= <- <- <-]. by destruct want_header.
Qed.

Lemma combine_sorted_header slices channels_axis img md :
  combine_sorted slices channels_axis = Ok (img, md) → header md = None.
Proof.
  unfold combine_sorted.
  destruct (combine_slices slices) as [[img0 aff]|e]; [|done]. rewrite bind_Ok.
  destruct (first_slice slices ≫= _) as [spp|e]; [|done]. rewrite bind_Ok.
  destruct (move_channels_axis _ _ _ _) as [img1|e]; [|done]. rewrite bind_Ok.
  by intros [= <- <-].
Qed.

Lemma read_dcm_dir_header input_dir globber channels_axis w img md w' :
  read_dcm_dir input_dir globber channels_axis w = (Ok (img, md), w') →
  header md = None.
Proof.
  destruct (decide (glob w input_dir globber = [])) as [Hnil|Hne].
  { by rewrite read_dcm_dir_empty. }
  destruct (read_dcm_dir_spec input_dir globber channels_axis w Hne) as (w1 & -> & _).
  intros [= Hrun <-]. revert Hrun.
  destruct (mapM _ _) as [slices|e]; [|done]. rewrite bind_Ok.
  unfold combine_series.
  destruct (sort_by_instance_number slices) as [sorted|e]; [|done]. rewrite bind_Ok.
  apply combine_sorted_header.
Qed.

(** C9: a read that returns attaches a header exactly when the path is a
    single file and a header is requested; the header then maps the
    string of every tag of the parsed dataset to that tag's element and has
    no other key; a directory read never populates the header, whatever the
    header argument. *)
Theorem read_img_header (w : World) (input_path : Path) (want_header : bool)
    (channels_axis : option Z) (globber : string) (allow_default_affine : bool)
    (img : np.ndarray) (md : MetaData) :
  Inj (=) (=) str_tag →
  (read_img input_path want_header channels_axis globber allow_default_affine w).1
  = Ok (img, md) →
  (is_Some (header md) ↔ is_dir w input_path = false ∧ want_header = true)
  ∧ (is_dir w input_path = true → header md = None)
  ∧ (is_dir w input_path = false → want_header = true →
     ∃ (ds : Dataset) (h : gmap string Value),
       dcmread_result (files w) input_path = Ok ds
       ∧ header md = Some h
       ∧ (∀ k, h !! str_tag k = ds !! k)
       ∧ (∀ s, is_Some (h !! s) → ∃ k, is_Some (ds !! k) ∧ s = str_tag k)).
Proof.
  intros Hinj Hrun.
  destruct (read_img input_path want_header channels_axis globber
              allow_default_affine w) as [r w'] eqn:Hrun'.
  simpl in Hrun. subst r. rename Hrun' into Hrun.
  destruct (is_dir w input_path) eqn:Hd.
  - rewrite read_img_dir in Hrun by done.
    apply read_dcm_dir_header in Hrun. rewrite Hrun.
    split; [|by split]. split; [by intros [? ?]|by intros [? _]].
  - rewrite read_img_file in Hrun by done.
    apply read_dcm_file_header in Hrun as (ds & Hds & Hh). rewrite Hh.
    split; [|split; [done|]].
    + destruct want_header.
      * split; [done|by eexists].
      * split; [by intros [? ?]|by intros [_ ?]].
    + intros _ ->. exists ds, (header_of ds). repeat split; try done.
      * intros k. by apply header_of_lookup.
      * apply header_of_keys.
Qed.

(** C10: on a single file the result does not depend on the glob pattern; on
    a directory it depends neither on the header flag nor on
    allow_default_affine.  The equalities are between the whole outcomes:
    value or exception, and final world. *)
Theorem read_img_irrelevant_arguments (w : World) (input_path : Path)
    (want_header want_header' : bool) (channels_axis : option Z) (globber globber' : string)
    (allow_default_affine allow_default_affine' : bool) :
  (is_dir w input_path = false →
   read_img input_path want_header channels_axis globber allow_default_affine w
   = read_img input_path want_header channels_axis globber' allow_default_affine w)
  ∧ (is_dir w input_path = true →
     read_img input_path want_header channels_axis globber allow_default_affine w
     = read_img input_path want_header' channels_axis globber allow_default_affine' w).
Proof.
  split; intros Hd.
  - by rewrite !read_img_file.
  - by rewrite !read_img_dir.
Qed.
End header_claims.

(** ** Moving an axis *)

Section relocate_facts.
Context {A : Type}.
Implicit Types (l : list A) (x : A).

Lemma list_insert_at_0 x l : np.list_insert_at 0 x l = x :: l.
Proof. done. Qed.

Lemma list_insert_at_S i x y l :
  np.list_insert_at (S i) x (y :: l) = y :: np.list_insert_at i x l.
Proof. done. Qed.

Lemma list_insert_at_length i x l : length (np.list_insert_at i x l) = S (length l).
Proof.
  unfold np.list_insert_at. rewrite length_app. simpl.
  rewrite length_take, length_drop. lia.
Qed.

Lemma list_insert_at_lookup i x l :
  (i ≤ length l)%nat → np.list_insert_at i x l !! i = Some x.
Proof.
  revert l. induction i as [|i IH]; intros l Hi; [done|].
  destruct l as [|y l]; simpl in Hi; [lia|].
  rewrite list_insert_at_S. simpl. apply IH. lia.
Qed.

Lemma delete_list_insert_at i x l :
  (i ≤ length l)%nat → delete i (np.list_insert_at i x l) = l.
Proof.
  revert l. induction i as [|i IH]; intros l Hi; [done|].
  destruct l as [|y l]; simpl in Hi; [lia|].
  rewrite list_insert_at_S. simpl. f_equal. apply IH. lia.
Qed.

Lemma list_insert_at_delete i x l :
  l !! i = Some x → np.list_insert_at i x (delete i l) = l.
Proof.
  revert l. induction i as [|i IH]; intros [|y l] Hi; simplify_eq/=; [done|].
  rewrite list_insert_at_S. f_equal. by apply IH.
Qed.

Lemma relocate_length src dst l : length (np.relocate src dst l) = length l.
Proof.
  unfold np.relocate. destruct (l !! src) as [x|] eqn:Hx; [|done].
  rewrite list_insert_at_length, length_delete by eauto.
  apply lookup_lt_Some in Hx. lia.
Qed.

(** The element that was at [src] is at [dst]. *)
Lemma relocate_lookup src dst l :
  (src < length l)%nat → (dst < length l)%nat →
  np.relocate src dst l !! dst = l !! src.
Proof.
  intros Hs Hd. unfold np.relocate.
  destruct (lookup_lt_is_Some_2 l src Hs) as [x Hx]. rewrite Hx.
  apply list_insert_at_lookup. rewrite length_delete by eauto. lia.
Qed.

(** The other elements are the same, in the same order. *)
Lemma relocate_delete src dst l :
  (src < length l)%nat → (dst < length l)%nat →
  delete dst (np.relocate src dst l) = delete src l.
Proof.
  intros Hs Hd. unfold np.relocate.
  destruct (lookup_lt_is_Some_2 l src Hs) as [x Hx]. rewrite Hx.
  apply delete_list_insert_at. rewrite length_delete by eauto. lia.
Qed.

Lemma relocate_same src l : np.relocate src src l = l.
Proof.
  unfold np.relocate. destruct (l !! src) as [x|] eqn:Hx; [|done].
  by apply list_insert_at_delete.
Qed.

Lemma relocate_inverse src dst l :
  (src < length l)%nat → (dst < length l)%nat →
  np.relocate dst src (np.relocate src dst l) = l.
Proof.
  intros Hs Hd. unfold np.relocate at 1.
  rewrite relocate_lookup by done.
  destruct (lookup_lt_is_Some_2 l src Hs) as [x Hx]. rewrite Hx.
  rewrite relocate_delete by done. by apply list_insert_at_delete.
Qed.
Lemma relocate_perm src dst l : np.relocate src dst l ≡ₚ l.
Proof.
  unfold np.relocate. destruct (l !! src) as [x|] eqn:Hx; [|done].
  unfold np.list_insert_at. rewrite <-Permutation_middle, take_drop.
  by rewrite <-delete_Permutation.
Qed.
End relocate_facts.

Lemma relocate_fmap {A B} (f : A → B) (src dst : nat) (l : list A) :
  f <$> np.relocate src dst l = np.relocate src dst (f <$> l).
Proof.
  unfold np.relocate. rewrite list_lookup_fmap.
  destruct (l !! src) as [x|]; simpl; [|done].
  unfold np.list_insert_at.
  by rewrite fmap_app, fmap_cons, fmap_take, fmap_drop, list_fmap_delete.
Qed.

(** The order numpy computes is the relocation of [src] to [dst] in
    [0, 1, ..., nd - 1]. *)
Lemma filter_ne_seq (src i n : nat) :
  filter (λ k, k ≠ src) (seq i n) = if decide (i ≤ src < i + n)%nat
                                    then seq i (src - i) ++ seq (S src) (i + n - S src)
                                    else seq i n.
Proof.
  revert i. induction n as [|n IH]; intros i; simpl.
  - destruct (decide _); [lia|done].
  - rewrite filter_cons, IH.
    destruct (decide (i ≠ src)) as [Hne|Heq];
      destruct (decide (S i ≤ src < S i + n)%nat), (decide (i ≤ src < i + S n)%nat);
      try lia.
    + replace (src - i)%nat with (S (src - S i)) by lia. simpl.
      do 3 f_equal; lia.
    + done.
    + assert (i = src) as -> by (destruct (decide (i = src)); [done|by destruct Heq]).
      rewrite Nat.sub_diag. simpl. f_equal. lia.
Qed.

Lemma moveaxis_order_relocate (nd src dst : nat) :
  (src < nd)%nat → np.moveaxis_order nd src dst = np.relocate src dst (seq 0 nd).
Proof.
  intros Hs. unfold np.moveaxis_order, np.relocate.
  rewrite lookup_seq_lt by done. simpl. f_equal.
  rewrite filter_ne_seq, decide_True by lia.
  rewrite delete_take_drop, take_seq, drop_seq.
  rewrite Nat.sub_0_r, Nat.min_l by lia. done.
Qed.

Lemma fmap_nth_seq {A} (d : A) (l : list A) :
  (λ n, nth n l d) <$> seq 0 (length l) = l.
Proof.
  apply list_eq. intros i. rewrite list_lookup_fmap.
  destruct (decide (i < length l)%nat) as [Hi|Hi].
  - rewrite lookup_seq_lt by done. simpl.
    destruct (lookup_lt_is_Some_2 l i Hi) as [x Hx].
    by rewrite (nth_lookup_Some _ _ _ _ Hx).
  - rewrite lookup_seq_ge, lookup_ge_None_2 by lia. done.
Qed.

Lemma transpose_moveaxis_order (a : np.ndarray) (src dst : nat) :
  (src < np.ndim a)%nat →
  np.axes (np.transpose a (np.moveaxis_order (np.ndim a) src dst))
  = np.relocate src dst (np.axes a).
Proof.
  intros Hs. unfold np.transpose. simpl.
  rewrite moveaxis_order_relocate by done.
  rewrite relocate_fmap. unfold np.ndim. by rewrite fmap_nth_seq.
Qed.

Lemma normalize_axis_index_Ok (axis : Z) (nd : nat) :
  - Z.of_nat nd ≤ axis < Z.of_nat nd →
  ∃ n, np.normalize_axis_index axis nd = Ok n ∧ (n < nd)%nat
       ∧ Z.of_nat n = if decide (axis < 0) then axis + Z.of_nat nd else axis.
Proof.
  intros Hr. unfold np.normalize_axis_index. rewrite decide_True by done.
  eexists. split; [done|]. destruct (decide (axis < 0)); split; lia.
Qed.

Lemma normalize_axis_index_inv (axis : Z) (nd n : nat) :
  np.normalize_axis_index axis nd = Ok n → (n < nd)%nat.
Proof.
  unfold np.normalize_axis_index. destruct (decide _); [|done].
  intros [= <-]. destruct (decide (axis < 0)); lia.
Qed.

Lemma moveaxis_Ok (a : np.ndarray) (source destination : Z) (src dst : nat) :
  np.normalize_axis_index source (np.ndim a) = Ok src →
  np.normalize_axis_index destination (np.ndim a) = Ok dst →
  np.moveaxis a source destination
  = Ok {| np.dtype := np.dtype a; np.axes := np.relocate src dst (np.axes a);
          np.offset := np.offset a; np.buffer := np.buffer a |}.
Proof.
  intros Hs Hd. unfold np.moveaxis. rewrite Hs, Hd, !bind_Ok.
  f_equal. rewrite <-(transpose_moveaxis_order a src dst)
    by (by eapply normalize_axis_index_inv).
  done.
Qed.

(** Relocating the same position in an index tuple and in the strides
    leaves the flat index alone. *)
Lemma dot_list_insert_at (t : nat) (idx : list nat) (strd : list Z) (i : nat) (s : Z) :
  length idx = length strd → (t ≤ length idx)%nat →
  np.dot (np.list_insert_at t i idx) (np.list_insert_at t s strd)
  = Z.of_nat i * s + np.dot idx strd.
Proof.
  revert idx strd. induction t as [|t IH]; intros idx strd Hlen Ht.
  - done.
  - destruct idx as [|j idx], strd as [|r strd]; simplify_eq/=; [lia|].
    rewrite !list_insert_at_S. unfold np.dot in *. simpl.
    rewrite IH by lia. lia.
Qed.

Lemma dot_delete (k : nat) (idx : list nat) (strd : list Z) (i : nat) (s : Z) :
  idx !! k = Some i → strd !! k = Some s →
  np.dot idx strd = Z.of_nat i * s + np.dot (delete k idx) (delete k strd).
Proof.
  revert idx strd. induction k as [|k IH]; intros [|j idx] [|r strd] Hi Hs;
    simplify_eq/=; [done|].
  unfold np.dot in *. simpl. rewrite (IH idx strd) by done. lia.
Qed.

Lemma dot_relocate (src dst : nat) (idx : list nat) (strd : list Z) :
  length idx = length strd → (src < length idx)%nat → (dst < length idx)%nat →
  np.dot (np.relocate src dst idx) (np.relocate src dst strd) = np.dot idx strd.
Proof.
  intros Hlen Hs Hd. unfold np.relocate.
  destruct (lookup_lt_is_Some_2 idx src Hs) as [i Hi].
  destruct (lookup_lt_is_Some_2 strd src) as [s Hst]; [lia|].
  rewrite Hi, Hst, dot_list_insert_at.
  - symmetry. by apply dot_delete.
  - rewrite !length_delete by eauto. lia.
  - rewrite length_delete by eauto. lia.
Qed.

Lemma getitem_moveaxis (a r : np.ndarray) (source destination : Z) (src dst : nat)
    (idx : list nat) :
  np.normalize_axis_index source (np.ndim a) = Ok src →
  np.normalize_axis_index destination (np.ndim a) = Ok dst →
  np.moveaxis a source destination = Ok r →
  length idx = np.ndim a →
  np.getitem r (np.relocate src dst idx) = np.getitem a idx.
Proof.
  intros Hs Hd Hr Hlen. rewrite (moveaxis_Ok a _ _ src dst) in Hr by done.
  injection Hr as <-.
  apply normalize_axis_index_inv in Hs, Hd. unfold np.ndim in *.
  unfold np.getitem, np.flat_index, np.strides. simpl.
  rewrite relocate_fmap, dot_relocate; [done| |lia|lia].
  by rewrite length_fmap.
Qed.

Section channel_claims.
Context `{Collaborators}.

(** C7: [move_channels_axis] returns the array unchanged when
    samples_per_pixel is at most 1 or no target axis is given; otherwise,
    for axes of the array, the result is a view of the same buffer whose
    axis at the target position is the array's axis at the source position,
    whose other axes are the array's other axes in the same order, and whose
    sample at every relocated index is the array's sample at the index. *)
Theorem move_channels_axis_spec (array : np.ndarray) (samples_per_pixel : Z)
    (source : Z) (channels_axis : option Z) :
  (samples_per_pixel ≤ 1 ∨ channels_axis = None →
   move_channels_axis array samples_per_pixel source channels_axis = Ok array)
  ∧ (∀ (target : Z) (src dst : nat),
       1 < samples_per_pixel →
       channels_axis = Some target →
       np.normalize_axis_index source (np.ndim array) = Ok src →
       np.normalize_axis_index target (np.ndim array) = Ok dst →
       ∃ r, move_channels_axis array samples_per_pixel source channels_axis = Ok r
            ∧ np.axes r !! dst = np.axes array !! src
            ∧ delete dst (np.axes r) = delete src (np.axes array)
            ∧ np.axes r ≡ₚ np.axes array
            ∧ np.buffer r = np.buffer array
            ∧ np.offset r = np.offset array
            ∧ np.dtype r = np.dtype array
            ∧ ∀ idx, length idx = np.ndim array →
                np.getitem r (np.relocate src dst idx) = np.getitem array idx).
Proof.
  split.
  - intros [Hspp| ->]; unfold move_channels_axis.
    + by rewrite bool_decide_eq_false_2 by lia.
    + by destruct (bool_decide _).
  - intros target src dst Hspp -> Hs Hd. unfold move_channels_axis.
    rewrite bool_decide_eq_true_2 by lia.
    pose proof (moveaxis_Ok array source target src dst Hs Hd) as Hr.
    eexists. split; [exact Hr|]. simpl.
    pose proof (normalize_axis_index_inv _ _ _ Hs) as Hs'.
    pose proof (normalize_axis_index_inv _ _ _ Hd) as Hd'.
    unfold np.ndim in Hs', Hd'.
    repeat split.
    + by apply relocate_lookup.
    + by apply relocate_delete.
    + apply relocate_perm.
    + intros idx Hlen. by apply (getitem_moveaxis array _ source target).
Qed.

(** C8: for samples_per_pixel above 1 and axes of the array, moving an axis
    onto itself returns the array, and moving axis a to b and then b to a
    returns the array. *)
Theorem move_channels_axis_inverse (array : np.ndarray) (samples_per_pixel : Z) (a b : Z) :
  1 < samples_per_pixel →
  - Z.of_nat (np.ndim array) ≤ a < Z.of_nat (np.ndim array) →
  - Z.of_nat (np.ndim array) ≤ b < Z.of_nat (np.ndim array) →
  move_channels_axis array samples_per_pixel a (Some a) = Ok array
  ∧ (r ← move_channels_axis array samples_per_pixel a (Some b);
     move_channels_axis r samples_per_pixel b (Some a)) = Ok array.
Proof.
  intros Hspp Ha Hb. unfold move_channels_axis.
  rewrite bool_decide_eq_true_2 by lia.
  destruct (normalize_axis_index_Ok a _ Ha) as (src & Hs & Hs' & _).
  destruct (normalize_axis_index_Ok b _ Hb) as (dst & Hd & Hd' & _).
  unfold np.ndim in Hs', Hd'.
  split.
  - rewrite (moveaxis_Ok array a a src src) by done.
    rewrite relocate_same. by destruct array.
  - rewrite (moveaxis_Ok array a b src dst), bind_Ok by done.
    rewrite (moveaxis_Ok _ b a dst src); unfold np.ndim; simpl;
      rewrite ?relocate_length; try done.
    rewrite relocate_inverse by done. by destruct array.
Qed.
End channel_claims.

(** ** Converting and serializing an array *)

Lemma astype_dtype (a : np.ndarray) (d : np.Dtype) : np.dtype (np.astype a d) = d.
Proof. unfold np.astype. by destruct (decide _). Qed.

Lemma astype_axes (a : np.ndarray) (d : np.Dtype) : np.axes (np.astype a d) = np.axes a.
Proof. unfold np.astype. by destruct (decide _). Qed.

Lemma astype_offset (a : np.ndarray) (d : np.Dtype) :
  np.offset (np.astype a d) = np.offset a.
Proof. unfold np.astype. by destruct (decide _). Qed.

Lemma astype_buffer (a : np.ndarray) (d : np.Dtype) :
  np.buffer (np.astype a d) = np.convert (np.dtype a) d <$> np.buffer a.
Proof.
  unfold np.astype, np.convert. destruct (decide _); simpl; [|done].
  by rewrite list_fmap_id.
Qed.

Lemma astype_getitem (a : np.ndarray) (d : np.Dtype) (idx : list nat) :
  np.getitem (np.astype a d) idx = np.convert (np.dtype a) d <$> np.getitem a idx.
Proof.
  unfold np.getitem, np.flat_index, np.strides.
  rewrite astype_axes, astype_offset, astype_buffer.
  destruct (decide _); [|done]. by rewrite list_lookup_fmap.
Qed.

Lemma tobytes_astype (a : np.ndarray) (d : np.Dtype) :
  np.tobytes (np.astype a d)
  = (idx ← np.ndindex (np.shape a);
     match np.getitem a idx with
     | Some z => np.le_bytes (np.itemsize d) (np.convert (np.dtype a) d z)
     | None => []
     end).
Proof.
  unfold np.tobytes, np.shape. rewrite astype_axes, astype_dtype.
  apply list_bind_ext; [|done]. intros idx.
  rewrite astype_getitem. by destruct (np.getitem a idx).
Qed.

(** ** The write path *)

Section write_claims.
Context `{Collaborators}.

Lemma save_arr2dcm_file_spec output_filename template_filename img_arr dtype keep_rescale w :
  save_arr2dcm_file output_filename template_filename img_arr dtype keep_rescale w
  = match dcmread_result (files w) template_filename with
    | Err e => (Err e, w)
    | Ok ds =>
        match substitute_pixels ds img_arr dtype keep_rescale with
        | Err e => (Err e, log_parsed template_filename w)
        | Ok ds' =>
            match write_error w output_filename with
            | Some e => (Err e, log_parsed template_filename w)
            | None =>
                (Ok (), write_file output_filename (Dicom ds')
                          (log_parsed template_filename w))
            end
        end
    end.
Proof.
  unfold save_arr2dcm_file, substitute_pixels, strip_rescale, cast_pixels.
  rewrite IO_bind_unfold. unfold dcmread, dcmread_result.
  destruct (files w !! template_filename) as [[ds|]|]; try done.
  unfold lift. rewrite IO_bind_unfold.
  destruct (if negb keep_rescale then _ else _) as [ds1|e]; [|done].
  rewrite bind_Ok, IO_bind_unfold.
  destruct (match dtype with Some _ => _ | None => _ end) as [arr|e]; done.
Qed.

Lemma strip_rescale_single (ds : Dataset) :
  convert_ds ds = FileDataset →
  strip_rescale ds false
  = if decide (is_Some (ds !! RescaleSlope) ∧ is_Some (ds !! RescaleIntercept))
    then Ok (delete RescaleIntercept (delete RescaleSlope ds))
    else Err AttributeError.
Proof.
  intros Hcls. unfold strip_rescale, delattr. simpl. rewrite Hcls.
  destruct (ds !! RescaleSlope) as [slope|] eqn:Hslope.
  - rewrite bind_Ok, lookup_delete_ne by done.
    destruct (ds !! RescaleIntercept) as [intercept|] eqn:Hint.
    + rewrite decide_True; [done|]. split; by eexists.
    + rewrite decide_False; [done|]. by intros [_ [? ?]].
  - rewrite bind_Err, decide_False; [done|]. by intros [[? ?] _].
Qed.

Lemma substitute_pixels_inv ds img_arr dtype keep_rescale ds' :
  substitute_pixels ds img_arr dtype keep_rescale = Ok ds' →
  ∃ stripped arr,
    strip_rescale ds keep_rescale = Ok stripped
    ∧ cast_pixels stripped img_arr dtype = Ok arr
    ∧ ds' = <[PixelData := VBytes (np.tobytes arr)]> stripped.
Proof.
  unfold substitute_pixels.
  destruct (strip_rescale ds keep_rescale) as [stripped|e]; [|done]. rewrite bind_Ok.
  destruct (cast_pixels stripped img_arr dtype) as [arr|e] eqn:Hcast; [|done].
  rewrite bind_Ok. intros [= <-]. by exists stripped, arr.
Qed.

Lemma save_arr2dcm_file_inv output_filename template_filename img_arr dtype keep_rescale w :
  (save_arr2dcm_file output_filename template_filename img_arr dtype keep_rescale w).1
  = Ok () →
  ∃ ds ds',
    dcmread_result (files w) template_filename = Ok ds
    ∧ substitute_pixels ds img_arr dtype keep_rescale = Ok ds'
    ∧ files (save_arr2dcm_file output_filename template_filename img_arr dtype
               keep_rescale w).2
      = <[output_filename := Dicom ds']> (files w).
Proof.
  rewrite save_arr2dcm_file_spec.
  destruct (dcmread_result (files w) template_filename) as [ds|e]; [|done].
  destruct (substitute_pixels ds img_arr dtype keep_rescale) as [ds'|e] eqn:Hsub; [|done].
  destruct (write_error w output_filename); [done|].
  intros _. by exists ds, ds'.
Qed.

(** C4: with keep_rescale false and a single-frame template, the write
    raises [AttributeError] (the spec's MissingTagError) and writes nothing
    when the rescale slope or the rescale intercept is absent from the
    template; when both are present it removes them: provided the pixels
    can be cast and the output path opened, the write returns and the file
    it writes is the template's dataset without the two tags, with the
    pixel data substituted.  With keep_rescale true no tag is removed: the
    file written is the template's dataset with the pixel data
    substituted. *)
Theorem save_arr2dcm_file_rescale_tags (w : World)
    (output_filename template_filename : Path) (img_arr : np.ndarray)
    (dtype : option np.Dtype) (keep_rescale : bool) (ds : Dataset) :
  dcmread_result (files w) template_filename = Ok ds →
  convert_ds ds = FileDataset →
  let run := save_arr2dcm_file output_filename template_filename img_arr dtype
               keep_rescale w in
  let stripped := delete RescaleIntercept (delete RescaleSlope ds) in
  (keep_rescale = false →
   ds !! RescaleSlope = None ∨ ds !! RescaleIntercept = None →
   run.1 = Err AttributeError ∧ files run.2 = files w)
  ∧ (keep_rescale = false →
     is_Some (ds !! RescaleSlope) → is_Some (ds !! RescaleIntercept) →
     strip_rescale ds keep_rescale = Ok stripped)
  ∧ (keep_rescale = false →
     is_Some (ds !! RescaleSlope) → is_Some (ds !! RescaleIntercept) →
     ∀ arr, cast_pixels stripped img_arr dtype = Ok arr →
            write_error w output_filename = None →
            run = (Ok (), write_file output_filename
                            (Dicom (<[PixelData := VBytes (np.tobytes arr)]> stripped))
                            (log_parsed template_filename w))
            ∧ stripped !! RescaleSlope = None
            ∧ stripped !! RescaleIntercept = None
            ∧ ∀ t, t ≠ RescaleSlope → t ≠ RescaleIntercept → stripped !! t = ds !! t)
  ∧ (keep_rescale = false → run.1 = Ok () →
     ∃ written, files run.2 !! output_filename = Some (Dicom written)
                ∧ written !! RescaleSlope = None
                ∧ written !! RescaleIntercept = None)
  ∧ (keep_rescale = true →
     ∀ arr, cast_pixels ds img_arr dtype = Ok arr →
            write_error w output_filename = None →
            run = (Ok (), write_file output_filename
                            (Dicom (<[PixelData := VBytes (np.tobytes arr)]> ds))
                            (log_parsed template_filename w)))
  ∧ (keep_rescale = true → run.1 = Ok () →
     ∃ written, files run.2 !! output_filename = Some (Dicom written)
                ∧ ∀ t, is_Some (ds !! t) → is_Some (written !! t)).
Proof.
  intros Hread Hcls run stripped. split; [|split; [|split; [|split; [|split]]]].
  - intros -> Habsent. unfold run. rewrite save_arr2dcm_file_spec, Hread.
    unfold substitute_pixels. rewrite strip_rescale_single by done.
    rewrite decide_False; [done|].
    intros [[? Hs] [? Hi]]. destruct Habsent; congruence.
  - intros -> Hs Hi. rewrite strip_rescale_single by done. by rewrite decide_True.
  - intros -> Hs Hi arr Hcast Hwe. unfold run.
    rewrite save_arr2dcm_file_spec, Hread. unfold substitute_pixels.
    rewrite strip_rescale_single by done. rewrite decide_True by done.
    rewrite bind_Ok. fold stripped. rewrite Hcast, bind_Ok, Hwe.
    split; [done|]. unfold stripped. split; [|split].
    + by rewrite lookup_delete_ne, lookup_delete_eq.
    + by rewrite lookup_delete_eq.
    + intros t Hts Hti. by rewrite !lookup_delete_ne.
  - intros -> Hok. unfold run in *.
    destruct (save_arr2dcm_file_inv _ _ _ _ _ _ Hok) as (ds0 & ds' & Hread' & Hsub & ->).
    assert (ds0 = ds) as -> by congruence.
    apply substitute_pixels_inv in Hsub as (stripped' & arr & Hstrip & _ & ->).
    rewrite strip_rescale_single in Hstrip by done.
    destruct (decide _); [|done]. injection Hstrip as <-.
    eexists. split; [apply lookup_insert_eq|].
    rewrite !lookup_insert_ne by done.
    rewrite lookup_delete_ne, !lookup_delete_eq by done. done.
  - intros -> arr Hcast Hwe. unfold run.
    rewrite save_arr2dcm_file_spec, Hread. unfold substitute_pixels, strip_rescale.
    cbn [negb]. by rewrite bind_Ok, Hcast, bind_Ok, Hwe.
  - intros -> Hok. unfold run in *.
    destruct (save_arr2dcm_file_inv _ _ _ _ _ _ Hok) as (ds0 & ds' & Hread' & Hsub & ->).
    assert (ds0 = ds) as -> by congruence.
    apply substitute_pixels_inv in Hsub as (stripped' & arr & Hstrip & _ & ->).
    injection Hstrip as <-.
    eexists. split; [apply lookup_insert_eq|].
    intros t Ht. destruct (decide (t = PixelData)) as [->|Hne].
    + rewrite lookup_insert_eq. by eexists.
    + by rewrite lookup_insert_ne.
Qed.

(** C5: a successful write changes the file at the output path and no other
    file; the dataset it serializes there is the template's, with the pixel
    data substituted and, unless keep_rescale, the rescale tags (single
    frame) or the intensity-transformation tags (multi frame) removed; every
    other tag has the element it has in the template. *)
Theorem save_arr2dcm_file_frame (intensity_tags : gset N) (w : World)
    (output_filename template_filename : Path) (img_arr : np.ndarray)
    (dtype : option np.Dtype) (keep_rescale : bool) :
  (∀ d d', del_intensity_trans d = Ok d' →
           ∀ t, t ∉ intensity_tags → d' !! t = d !! t) →
  let run := save_arr2dcm_file output_filename template_filename img_arr dtype
               keep_rescale w in
  run.1 = Ok () →
  ∃ ds written,
    dcmread_result (files w) template_filename = Ok ds
    ∧ files run.2 = <[output_filename := Dicom written]> (files w)
    ∧ is_Some (written !! PixelData)
    ∧ (∀ t, t ≠ PixelData →
            (keep_rescale = false →
             match convert_ds ds with
             | FileDataset => t ≠ RescaleSlope ∧ t ≠ RescaleIntercept
             | MultiFrameFileDataset => t ∉ intensity_tags
             end) →
            written !! t = ds !! t)
    ∧ (convert_ds ds = FileDataset →
       ∃ pixels,
         written = <[PixelData := VBytes pixels]>
                     (if keep_rescale then ds
                      else delete RescaleIntercept (delete RescaleSlope ds))).
Proof.
  intros Hdel run Hok. unfold run in *.
  destruct (save_arr2dcm_file_inv _ _ _ _ _ _ Hok) as (ds & ds' & Hread & Hsub & ->).
  apply substitute_pixels_inv in Hsub as (stripped & arr & Hstrip & _ & ->).
  exists ds. eexists. split; [done|]. split; [done|]. split; [|split].
  - rewrite lookup_insert_eq. by eexists.
  - intros t Hpix Hkeep. rewrite lookup_insert_ne by done.
    destruct keep_rescale.
    + by injection Hstrip as <-.
    + specialize (Hkeep eq_refl). unfold strip_rescale in Hstrip. simpl in Hstrip.
      destruct (convert_ds ds) eqn:Hcls.
      * destruct Hkeep as [Hslope Hint]. unfold delattr in Hstrip.
        destruct (ds !! RescaleSlope); [|done]. rewrite bind_Ok in Hstrip.
        destruct (delete RescaleSlope ds !! RescaleIntercept); [|done].
        injection Hstrip as <-. by rewrite !lookup_delete_ne.
      * by apply (Hdel ds).
  - intros Hcls. eexists. f_equal. destruct keep_rescale.
    + by injection Hstrip as <-.
    + rewrite strip_rescale_single in Hstrip by done.
      destruct (decide _); [|done]. by injection Hstrip as <-.
Qed.

(** C6: the pixel data a successful write stores is [tobytes] of the image
    array converted with [astype] to the dtype given, else to the dtype of
    the template's pixel array; the conversion keeps the shape, the strides
    and the offset and converts the buffer position by position, and the
    bytes are the converted samples in index order. *)
Theorem save_arr2dcm_file_pixel_data (w : World)
    (output_filename template_filename : Path) (img_arr : np.ndarray)
    (dtype : option np.Dtype) (keep_rescale : bool) :
  let run := save_arr2dcm_file output_filename template_filename img_arr dtype
               keep_rescale w in
  run.1 = Ok () →
  ∃ ds stripped d written,
    dcmread_result (files w) template_filename = Ok ds
    ∧ strip_rescale ds keep_rescale = Ok stripped
    ∧ match dtype with
      | Some d' => d = d'
      | None => ∃ pa, pixel_array stripped = Ok pa ∧ d = np.dtype pa
      end
    ∧ files run.2 !! output_filename = Some (Dicom written)
    ∧ written !! PixelData = Some (VBytes (np.tobytes (np.astype img_arr d)))
    ∧ np.dtype (np.astype img_arr d) = d
    ∧ np.axes (np.astype img_arr d) = np.axes img_arr
    ∧ np.offset (np.astype img_arr d) = np.offset img_arr
    ∧ np.buffer (np.astype img_arr d) = np.convert (np.dtype img_arr) d <$> np.buffer img_arr
    ∧ np.tobytes (np.astype img_arr d)
      = (idx ← np.ndindex (np.shape img_arr);
         match np.getitem img_arr idx with
         | Some z => np.le_bytes (np.itemsize d) (np.convert (np.dtype img_arr) d z)
         | None => []
         end).
Proof.
  intros run Hok. unfold run in *.
  destruct (save_arr2dcm_file_inv _ _ _ _ _ _ Hok) as (ds & ds' & Hread & Hsub & ->).
  apply substitute_pixels_inv in Hsub as (stripped & arr & Hstrip & Hcast & ->).
  assert (∃ d, arr = np.astype img_arr d
               ∧ match dtype with
                 | Some d' => d = d'
                 | None => ∃ pa, pixel_array stripped = Ok pa ∧ d = np.dtype pa
                 end) as (d & -> & Hd).
  { unfold cast_pixels in Hcast. destruct dtype as [d|].
    - injection Hcast as <-. by exists d.
    - destruct (pixel_array stripped) as [pa|e] eqn:Hpa; [|done].
      rewrite bind_Ok in Hcast. injection Hcast as <-.
      exists (np.dtype pa). split; [done|]. by exists pa. }
  exists ds, stripped, d. eexists.
  split; [done|]. split; [done|]. split; [done|].
  split; [by rewrite lookup_insert_eq|]. split; [by rewrite lookup_insert_eq|].
  split; [apply astype_dtype|]. split; [apply astype_axes|].
  split; [apply astype_offset|]. split; [apply astype_buffer|].
  apply tobytes_astype.
Qed.
End write_claims.

(** ** The theorems at work on the concrete instance *)

Section examples.
Import Fixture.

Lemma read_img_dir_enumeration_order_witness :
  files (world numbered_files listing_ab) = files (world numbered_files listing_ba)
  ∧ glob (world numbered_files listing_ab) "series" "*"
    ≡ₚ glob (world numbered_files listing_ba) "series" "*"
  ∧ returned (read_img (H:=collaborators) "series" false None "*" false
                (world numbered_files listing_ab)).1
    = returned (read_img (H:=collaborators) "series" false None "*" false
                  (world numbered_files listing_ba)).1.
Proof.
  split; [reflexivity|]. split; [apply Permutation_swap|].
  apply (read_img_dir_enumeration_order (H:=collaborators)).
  - reflexivity.
  - reflexivity.
  - reflexivity.
  - apply Permutation_swap.
  - apply (bool_decide_unpack (NoDup _)). vm_compute. exact I.
Defined.

Lemma read_img_dir_sorted_series_witness :
  is_dir (world mixed_files listing_ba) "series" = true
  ∧ glob (world mixed_files listing_ba) "series" "*" ≠ []
  ∧ mapM (dcmread_result (files (world mixed_files listing_ba)))
         (glob (world mixed_files listing_ba) "series" "*")
    = Ok [numbered_neg; untagged_a]
  ∧ Forall (λ ds, is_Some (returned (instance_key ds))) [numbered_neg; untagged_a]
  ∧ (read_img (H:=collaborators) "series" false None "*" false
       (world mixed_files listing_ba)).1
    = combine_sorted (H:=collaborators)
        (list_sort instance_number [numbered_neg; untagged_a]) None
  ∧ StronglySorted (key_le instance_number)
      (list_sort instance_number [numbered_neg; untagged_a]).
Proof.
  assert (is_dir (world mixed_files listing_ba) "series" = true) as Hd
    by reflexivity.
  assert (glob (world mixed_files listing_ba) "series" "*" ≠ []) as Hne
    by (vm_compute; discriminate).
  assert (mapM (dcmread_result (files (world mixed_files listing_ba)))
               (glob (world mixed_files listing_ba) "series" "*")
          = Ok [numbered_neg; untagged_a]) as Hparse
    by (vm_compute; reflexivity).
  assert (Forall (λ ds, is_Some (returned (instance_key ds)))
                 [numbered_neg; untagged_a]) as Hkeys
    by (apply (bool_decide_unpack (Forall _ _)); vm_compute; exact I).
  destruct (read_img_dir_sorted_series (H:=collaborators)
              (world mixed_files listing_ba) "series" false None "*" false
              [numbered_neg; untagged_a] Hd Hne Hparse Hkeys)
    as (Hrun & _ & Hsorted & _).
  repeat split; assumption.
Defined.

(** C2 as stated fails where it says the datasets without the tag sort
    first: a dataset whose instance number is negative is combined before
    them, and one whose instance number is 0 stays before them when it is
    enumerated before them. *)
Lemma read_img_dir_untagged_not_first :
  numbered_neg !! InstanceNumber = Some (VInt (-1))
  ∧ untagged_a !! InstanceNumber = None
  ∧ sort_by_instance_number [untagged_a; numbered_neg] = Ok [numbered_neg; untagged_a]
  ∧ sort_by_instance_number [slice (Some 0) 1 []; untagged_a]
    = Ok [slice (Some 0) 1 []; untagged_a]
  ∧ np.buffer <$> (fst <$> (read_img (H:=collaborators) "series" false None "*" false
                              (world mixed_files listing_ab)).1)
    = Ok [9; 10; 1; 2].
Proof. repeat split; vm_compute; reflexivity. Qed.

Lemma read_img_empty_directory_witness :
  is_dir (world numbered_files []) "series" = true
  ∧ glob (world numbered_files []) "series" "*" = []
  ∧ read_img (H:=collaborators) "series" true None "*" false (world numbered_files [])
    = (Err FileNotFoundError, world numbered_files []).
Proof.
  split; [reflexivity|]. split; [reflexivity|].
  apply (read_img_empty_directory (H:=collaborators)); reflexivity.
Defined.

Lemma save_arr2dcm_file_rescale_tags_witness :
  dcmread_result (files (world template_files [])) "template.dcm" = Ok template
  ∧ convert_ds (Collaborators:=collaborators) template = FileDataset
  ∧ is_Some (template !! RescaleSlope)
  ∧ is_Some (template !! RescaleIntercept)
  ∧ (save_arr2dcm_file (H:=collaborators) "out.dcm" "template.dcm" image
       (Some np.uint8) false (world template_files [])).1 = Ok ()
  ∧ (∃ written,
       files (save_arr2dcm_file (H:=collaborators) "out.dcm" "template.dcm" image
                (Some np.uint8) false (world template_files [])).2 !! "out.dcm"
       = Some (Dicom written)
       ∧ written !! RescaleSlope = None
       ∧ written !! RescaleIntercept = None)
  ∧ dcmread_result (files (world template_files [])) "bare.dcm" = Ok bare_template
  ∧ bare_template !! RescaleSlope = None
  ∧ (save_arr2dcm_file (H:=collaborators) "out.dcm" "bare.dcm" image None false
       (world template_files [])).1 = Err AttributeError.
Proof.
  assert (dcmread_result (files (world template_files [])) "template.dcm"
          = Ok template) as Hread by (vm_compute; reflexivity).
  assert (convert_ds (Collaborators:=collaborators) template = FileDataset)
    as Hcls by (vm_compute; reflexivity).
  assert (is_Some (template !! RescaleSlope)) as Hslope
    by (vm_compute; by eexists).
  assert (is_Some (template !! RescaleIntercept)) as Hintercept
    by (vm_compute; by eexists).
  assert (dcmread_result (files (world template_files [])) "bare.dcm"
          = Ok bare_template) as Hread' by (vm_compute; reflexivity).
  assert (convert_ds (Collaborators:=collaborators) bare_template = FileDataset)
    as Hcls' by (vm_compute; reflexivity).
  assert (bare_template !! RescaleSlope = None) as Habsent
    by (vm_compute; reflexivity).
  destruct (save_arr2dcm_file_rescale_tags (H:=collaborators)
              (world template_files []) "out.dcm" "template.dcm" image
              (Some np.uint8) false template Hread Hcls)
    as (_ & _ & Hremoves & Hwritten & _).
  destruct (Hremoves eq_refl Hslope Hintercept _ eq_refl eq_refl) as (Hrun & _).
  assert ((save_arr2dcm_file (H:=collaborators) "out.dcm" "template.dcm" image
             (Some np.uint8) false (world template_files [])).1 = Ok ()) as Hok
    by (rewrite Hrun; reflexivity).
  destruct (save_arr2dcm_file_rescale_tags (H:=collaborators)
              (world template_files []) "out.dcm" "bare.dcm" image None false
              bare_template Hread' Hcls')
    as (Hfails & _).
  destruct (Hfails eq_refl (or_introl Habsent)) as (Herr & _).
  split; [exact Hread|]. split; [exact Hcls|]. split; [exact Hslope|].
  split; [exact Hintercept|]. split; [exact Hok|].
  split; [exact (Hwritten eq_refl Hok)|].
  split; [exact Hread'|]. split; [exact Habsent|]. exact Herr.
Defined.

Lemma save_arr2dcm_file_frame_witness :
  (save_arr2dcm_file (H:=collaborators) "out.dcm" "multi.dcm" image (Some np.uint8)
     false (world template_files [])).1 = Ok ()
  ∧ ∃ written,
      files (save_arr2dcm_file (H:=collaborators) "out.dcm" "multi.dcm" image
               (Some np.uint8) false (world template_files [])).2
      = <["out.dcm" := Dicom written]> template_files
      ∧ written !! PatientName = multiframe_template !! PatientName.
Proof.
  assert ((save_arr2dcm_file (H:=collaborators) "out.dcm" "multi.dcm" image
             (Some np.uint8) false (world template_files [])).1 = Ok ()) as Hok
    by (vm_compute; reflexivity).
  split; [exact Hok|].
  destruct (save_arr2dcm_file_frame (H:=collaborators)
              {[PixelValueTransformationSequence]} (world template_files [])
              "out.dcm" "multi.dcm" image (Some np.uint8) false)
    as (ds & written & Hread & Hfiles & _ & Hframe & _).
  - intros d d' [= <-] t Ht. apply lookup_delete_ne. set_solver.
  - exact Hok.
  - exists written. split; [exact Hfiles|].
    assert (ds = multiframe_template) as ->.
    { vm_compute in Hread. by injection Hread as <-. }
    apply Hframe; [done|]. intros _. vm_compute. set_solver.
Defined.

Lemma save_arr2dcm_file_pixel_data_witness :
  (save_arr2dcm_file (H:=collaborators) "out.dcm" "template.dcm" image None true
     (world template_files [])).1 = Ok ()
  ∧ ∃ d written,
      files (save_arr2dcm_file (H:=collaborators) "out.dcm" "template.dcm" image None
               true (world template_files [])).2 !! "out.dcm" = Some (Dicom written)
      ∧ written !! PixelData = Some (VBytes (np.tobytes (np.astype image d))).
Proof.
  assert ((save_arr2dcm_file (H:=collaborators) "out.dcm" "template.dcm" image None
             true (world template_files [])).1 = Ok ()) as Hok
    by (vm_compute; reflexivity).
  split; [exact Hok|].
  destruct (save_arr2dcm_file_pixel_data (H:=collaborators) (world template_files [])
              "out.dcm" "template.dcm" image None true Hok)
    as (ds & stripped & d & written & _ & _ & _ & Hfile & Hpix & _).
  by exists d, written.
Defined.

Lemma move_channels_axis_spec_witness :
  1 < 3
  ∧ np.normalize_axis_index 0 (np.ndim image) = Ok 0%nat
  ∧ np.normalize_axis_index (-1) (np.ndim image) = Ok 1%nat
  ∧ move_channels_axis image 1 0 (Some (-1)) = Ok image
  ∧ ∃ r, move_channels_axis image 3 0 (Some (-1)) = Ok r
         ∧ np.axes r !! 1%nat = np.axes image !! 0%nat
         ∧ np.buffer r = np.buffer image.
Proof.
  destruct (move_channels_axis_spec image 1 0 (Some (-1))) as [Hnoop _].
  destruct (move_channels_axis_spec image 3 0 (Some (-1))) as [_ Hmove].
  destruct (Hmove (-1) 0%nat 1%nat) as (r & Hr & Hat & _ & _ & Hbuf & _);
    [lia|reflexivity|reflexivity|reflexivity|].
  split; [lia|]. split; [reflexivity|]. split; [reflexivity|].
  split; [apply Hnoop; left; lia|].
  by exists r.
Defined.

Lemma move_channels_axis_inverse_witness :
  1 < 3
  ∧ - Z.of_nat (np.ndim image) ≤ 0 < Z.of_nat (np.ndim image)
  ∧ - Z.of_nat (np.ndim image) ≤ 1 < Z.of_nat (np.ndim image)
  ∧ move_channels_axis image 3 0 (Some 0) = Ok image
  ∧ (r ← move_channels_axis image 3 0 (Some 1);
     move_channels_axis r 3 1 (Some 0)) = Ok image.
Proof.
  assert (- Z.of_nat (np.ndim image) ≤ 0 < Z.of_nat (np.ndim image)) as H0
    by (vm_compute; split; [discriminate|reflexivity]).
  assert (- Z.of_nat (np.ndim image) ≤ 1 < Z.of_nat (np.ndim image)) as H1
    by (vm_compute; split; [discriminate|reflexivity]).
  split; [lia|]. split; [exact H0|]. split; [exact H1|].
  apply (move_channels_axis_inverse image 3 0 1); [lia|exact H0|exact H1].
Defined.

Lemma read_img_header_witness :
  ∃ img md,
    (read_img (H:=collaborators) "series/a" true None "*" false
       (world numbered_files [])).1 = Ok (img, md)
    ∧ is_Some (header md)
    ∧ ∃ h, header md = Some h ∧ h !! pretty InstanceNumber = Some (VInt 2).
Proof.
  destruct (read_img (H:=collaborators) "series/a" true None "*" false
              (world numbered_files [])).1 as [[img md]|e] eqn:Hrun;
    [|vm_compute in Hrun; discriminate Hrun].
  exists img, md. split; [reflexivity|].
  destruct (read_img_header (H:=collaborators) (world numbered_files []) "series/a"
              true None "*" false img md)
    as (Hiff & _ & Hsnapshot).
  - exact pretty_N_inj.
  - exact Hrun.
  - split; [apply Hiff; by split|].
    destruct Hsnapshot as (ds & h & Hds & Hh & Hlookup & _); [reflexivity..|].
    exists h. split; [exact Hh|].
    change (pretty InstanceNumber) with (str_tag (Collaborators:=collaborators) InstanceNumber).
    rewrite Hlookup. vm_compute in Hds. by injection Hds as <-.
Defined.

Lemma read_img_irrelevant_arguments_witness :
  is_dir (world numbered_files listing_ab) "series/a" = false
  ∧ is_dir (world numbered_files listing_ab) "series" = true
  ∧ read_img (H:=collaborators) "series/a" true None "*" false
      (world numbered_files listing_ab)
    = read_img (H:=collaborators) "series/a" true None "*.dcm" false
        (world numbered_files listing_ab)
  ∧ read_img (H:=collaborators) "series" true None "*" false
      (world numbered_files listing_ab)
    = read_img (H:=collaborators) "series" false None "*" true
        (world numbered_files listing_ab).
Proof.
  split; [reflexivity|]. split; [reflexivity|]. split.
  - apply (proj1 (read_img_irrelevant_arguments (H:=collaborators)
                      (world numbered_files listing_ab) "series/a" true true None
                      "*" "*.dcm" false false)).
    reflexivity.
  - apply (proj2 (read_img_irrelevant_arguments (H:=collaborators)
                      (world numbered_files listing_ab) "series" true false None
                      "*" "*" false true)).
    reflexivity.
Defined.
End examples.

(** * Further properties *)

(** ** What a read does to the world *)

(** A failing [mapM] fails at its first failing element. *)
Lemma mapM_result_Err_inv {A B} (f : A → result B) (l : list A) (e : Exception) :
  mapM f l = Err e →
  ∃ before x after,
    l = before ++ x :: after
    ∧ Forall (λ y, is_Some (returned (f y))) before
    ∧ f x = Err e.
Proof.
  induction l as [|x l IH]; [done|].
  rewrite mapM_result_cons.
  destruct (f x) as [y|e'] eqn:Hx.
  - rewrite bind_Ok. destruct (mapM f l) as [ys|e'']; [done|].
    rewrite bind_Err. intros [= ->].
    destruct IH as (before & x' & after & -> & Hbefore & Hx'); [done|].
    exists (x :: before), x', after. repeat split; [|done].
    constructor; [|done]. rewrite Hx. by eexists.
  - rewrite bind_Err. intros [= ->]. exists [], x, l. by repeat split.
Qed.

Section read_effects.
Context `{Collaborators}.

Lemma read_dcm_file_spec filename want_header allow_default_affine channels_axis w :
  read_dcm_file filename want_header allow_default_affine channels_axis w
  = match dcmread_result (files w) filename with
    | Ok ds => (read_parsed_file ds want_header allow_default_affine channels_axis,
                log_parsed filename w)
    | Err e => (Err e, w)
    end.
Proof.
  unfold read_dcm_file, read_parsed_file, file_volume.
  rewrite IO_bind_unfold. unfold dcmread, dcmread_result.
  destruct (files w !! filename) as [[ds|]|]; try done.
  unfold lift. rewrite IO_bind_unfold.
  destruct (match convert_ds ds with
            | FileDataset => combine_slices [ds]
            | MultiFrameFileDataset => unpack_dataset ds allow_default_affine
            end) as [[img aff]|e]; [|done].
  rewrite bind_Ok, IO_bind_unfold.
  destruct (samples_per_pixel_of ds) as [spp|e]; [|done].
  rewrite bind_Ok, IO_bind_unfold.
  destruct (move_channels_axis img spp DEFAULT_CHANNELS_AXIS channels_axis); done.
Qed.

Lemma dcmread_unfold filename w :
  dcmread filename w = match dcmread_result (files w) filename with
                       | Ok ds => (Ok ds, log_parsed filename w)
                       | Err e => (Err e, w)
                       end.
Proof. unfold dcmread, dcmread_result. by destruct (files w !! filename) as [[?|]|]. Qed.

(** What the comprehension of line 58 leaves in the parse log. *)
Lemma mapM_dcmread_all paths slices w :
  mapM (dcmread_result (files w)) paths = Ok slices →
  ∃ w', mapM dcmread paths w = (Ok slices, w')
        ∧ files w' = files w ∧ is_dir w' = is_dir w ∧ glob w' = glob w
        ∧ parsed w' = parsed w ++ paths.
Proof.
  revert slices w. induction paths as [|p paths IH]; intros slices w.
  - intros [= <-]. exists w. by rewrite app_nil_r.
  - rewrite mapM_IO_cons, mapM_result_cons, IO_bind_unfold, dcmread_unfold.
    destruct (dcmread_result (files w) p) as [ds|e] eqn:Hp; [|done].
    rewrite bind_Ok.
    destruct (mapM (dcmread_result (files w)) paths) as [rest|e] eqn:Hrest; [|done].
    rewrite bind_Ok. intros [= <-]. rewrite IO_bind_unfold.
    destruct (IH rest (log_parsed p w) Hrest) as (w' & -> & Hf & Hd & Hg & Hlog).
    exists w'. simpl in *. repeat split; try done.
    by rewrite Hlog, <-app_assoc.
Qed.

Lemma mapM_dcmread_fails before p after e w :
  Forall (λ q, is_Some (returned (dcmread_result (files w) q))) before →
  dcmread_result (files w) p = Err e →
  ∃ w', mapM dcmread (before ++ p :: after) w = (Err e, w')
        ∧ files w' = files w ∧ is_dir w' = is_dir w ∧ glob w' = glob w
        ∧ parsed w' = parsed w ++ before.
Proof.
  intros Hbefore. revert w Hbefore.
  induction before as [|q before IH]; intros w Hbefore Hp.
  - change ([] ++ p :: after) with (p :: after).
    rewrite mapM_IO_cons, IO_bind_unfold, dcmread_unfold, Hp.
    exists w. by rewrite app_nil_r.
  - apply Forall_cons in Hbefore as [[ds Hq] Hbefore].
    apply returned_Some in Hq.
    change ((q :: before) ++ p :: after) with (q :: (before ++ p :: after)).
    rewrite mapM_IO_cons, IO_bind_unfold, dcmread_unfold, Hq.
    rewrite IO_bind_unfold.
    destruct (IH (log_parsed q w)) as (w' & -> & Hf & Hd & Hg & Hlog); [done..|].
    exists w'. simpl in *. repeat split; try done.
    by rewrite Hlog, <-app_assoc.
Qed.

Lemma read_dcm_dir_parsed input_dir globber channels_axis w slices :
  glob w input_dir globber ≠ [] →
  mapM (dcmread_result (files w)) (glob w input_dir globber) = Ok slices →
  ∃ w', read_dcm_dir input_dir globber channels_axis w
        = (combine_series slices channels_axis, w')
        ∧ files w' = files w ∧ is_dir w' = is_dir w ∧ glob w' = glob w
        ∧ parsed w' = parsed w ++ glob w input_dir globber.
Proof.
  intros Hne Hparse. unfold read_dcm_dir, path_glob.
  rewrite IO_bind_unfold.
  rewrite bool_decide_eq_false_2 by (by destruct (glob w input_dir globber)).
  rewrite IO_bind_unfold.
  destruct (mapM_dcmread_all _ _ w Hparse) as (w' & -> & Hw').
  exists w'. split; [|done].
  unfold combine_series, combine_sorted, lift. rewrite IO_bind_unfold.
  destruct (sort_by_instance_number slices) as [sorted|e]; [|done]. rewrite bind_Ok.
  rewrite IO_bind_unfold.
  destruct (combine_slices sorted) as [[img aff]|e]; [|done]. rewrite bind_Ok.
  rewrite IO_bind_unfold.
  destruct (first_slice sorted ≫= _) as [spp|e]; [|done]. rewrite bind_Ok.
  rewrite IO_bind_unfold.
  destruct (move_channels_axis _ _ _ _) as [img'|e]; done.
Qed.

Lemma read_dcm_dir_fails input_dir globber channels_axis w before p after e :
  glob w input_dir globber = before ++ p :: after →
  Forall (λ q, is_Some (returned (dcmread_result (files w) q))) before →
  dcmread_result (files w) p = Err e →
  ∃ w', read_dcm_dir input_dir globber channels_axis w = (Err e, w')
        ∧ files w' = files w ∧ is_dir w' = is_dir w ∧ glob w' = glob w
        ∧ parsed w' = parsed w ++ before.
Proof.
  intros Hglob Hbefore Hp. unfold read_dcm_dir, path_glob.
  rewrite IO_bind_unfold, Hglob.
  rewrite bool_decide_eq_false_2 by (rewrite length_app; simpl; lia).
  rewrite IO_bind_unfold.
  destruct (mapM_dcmread_fails before p after e w Hbefore Hp) as (w' & -> & Hw').
  by exists w'.
Qed.

Lemma mapM_dcmread_write_error paths w :
  write_error (mapM dcmread paths w).2 = write_error w.
Proof.
  revert w. induction paths as [|p paths IH]; intros w; [done|].
  rewrite mapM_IO_cons, IO_bind_unfold, dcmread_unfold.
  destruct (dcmread_result (files w) p) as [ds|e]; [|done].
  rewrite IO_bind_unfold. specialize (IH (log_parsed p w)).
  by destruct (mapM dcmread paths (log_parsed p w)) as [[rest|e] w'].
Qed.

Lemma read_dcm_dir_write_error input_dir globber channels_axis w :
  write_error (read_dcm_dir input_dir globber channels_axis w).2 = write_error w.
Proof.
  unfold read_dcm_dir, path_glob. rewrite IO_bind_unfold.
  destruct (bool_decide _); [done|]. rewrite IO_bind_unfold.
  pose proof (mapM_dcmread_write_error (glob w input_dir globber) w) as Hwe.
  destruct (mapM dcmread (glob w input_dir globber) w) as [[slices|e] w']; [|done].
  simpl in Hwe. unfold lift. rewrite IO_bind_unfold.
  destruct (sort_by_instance_number slices) as [sorted|e]; [|done].
  rewrite IO_bind_unfold.
  destruct (combine_slices sorted) as [[img aff]|e]; [|done].
  rewrite IO_bind_unfold.
  destruct (first_slice sorted ≫= _) as [spp|e]; [|done].
  rewrite IO_bind_unfold.
  destruct (move_channels_axis _ _ _ _) as [img'|e]; done.
Qed.

(** X1: a read, whether it returns or raises, leaves the files and the
    directory structure as they were: it only adds to the parse log. *)
Theorem read_img_read_only (w : World) (input_path : Path) (want_header : bool)
    (channels_axis : option Z) (globber : string) (allow_default_affine : bool) :
  let w' := (read_img input_path want_header channels_axis globber
               allow_default_affine w).2 in
  files w' = files w ∧ is_dir w' = is_dir w ∧ glob w' = glob w
  ∧ ∃ more, parsed w' = parsed w ++ more.
Proof.
  simpl. destruct (is_dir w input_path) eqn:Hd.
  - rewrite read_img_dir by done.
    destruct (decide (glob w input_path globber = [])) as [Hnil|Hne].
    { rewrite read_dcm_dir_empty by done. simpl. repeat split.
      exists []. by rewrite app_nil_r. }
    destruct (mapM (dcmread_result (files w)) (glob w input_path globber))
      as [slices|e] eqn:Hparse.
    + destruct (read_dcm_dir_parsed _ _ channels_axis w slices Hne Hparse)
        as (w' & -> & Hf & Hdir & Hg & Hlog).
      simpl. repeat split; try done. by eexists.
    + apply mapM_result_Err_inv in Hparse as (before & p & after & Hglob & Hbefore & Hp).
      destruct (read_dcm_dir_fails _ _ channels_axis w before p after e
                  Hglob Hbefore Hp) as (w' & -> & Hf & Hdir & Hg & Hlog).
      simpl. repeat split; try done. by eexists.
  - rewrite read_img_file, read_dcm_file_spec by done.
    destruct (dcmread_result (files w) input_path) as [ds|e]; simpl.
    + repeat split. by exists [input_path].
    + repeat split. exists []. by rewrite app_nil_r.
Qed.

(** X2: a read that returns has parsed the file it was given, or every
    file the glob enumerated, once each and in enumeration order. *)
Theorem read_img_parses_each_file_once (w : World) (input_path : Path)
    (want_header : bool) (channels_axis : option Z) (globber : string)
    (allow_default_affine : bool) (img : np.ndarray) (md : MetaData) :
  (read_img input_path want_header channels_axis globber allow_default_affine w).1
  = Ok (img, md) →
  parsed (read_img input_path want_header channels_axis globber
            allow_default_affine w).2
  = parsed w ++ (if is_dir w input_path then glob w input_path globber
                 else [input_path]).
Proof.
  destruct (is_dir w input_path) eqn:Hd.
  - rewrite read_img_dir by done.
    destruct (decide (glob w input_path globber = [])) as [Hnil|Hne].
    { by rewrite read_dcm_dir_empty. }
    destruct (mapM (dcmread_result (files w)) (glob w input_path globber))
      as [slices|e] eqn:Hparse.
    + destruct (read_dcm_dir_parsed _ _ channels_axis w slices Hne Hparse)
        as (w' & -> & _ & _ & _ & Hlog). done.
    + destruct (read_dcm_dir_spec input_path globber channels_axis w Hne)
        as (w' & -> & _). by rewrite Hparse.
  - rewrite read_img_file, read_dcm_file_spec by done.
    by destruct (dcmread_result (files w) input_path).
Qed.

(** X3: when a file of the directory does not parse, the read raises the
    exception of the first such file in enumeration order, having parsed
    the files before it and none after it. *)
Theorem read_img_dir_first_parse_failure (w : World) (input_path : Path)
    (want_header : bool) (channels_axis : option Z) (globber : string)
    (allow_default_affine : bool) (before after : list Path) (p : Path)
    (e : Exception) :
  is_dir w input_path = true →
  glob w input_path globber = before ++ p :: after →
  Forall (λ q, is_Some (returned (dcmread_result (files w) q))) before →
  dcmread_result (files w) p = Err e →
  (read_img input_path want_header channels_axis globber allow_default_affine w).1
  = Err e
  ∧ parsed (read_img input_path want_header channels_axis globber
              allow_default_affine w).2
    = parsed w ++ before.
Proof.
  intros Hd Hglob Hbefore Hp. rewrite read_img_dir by done.
  destruct (read_dcm_dir_fails _ _ channels_axis w before p after e Hglob Hbefore Hp)
    as (w' & -> & _ & _ & _ & Hlog).
  done.
Qed.

(** X4: a single file that does not parse makes the read raise the parse's
    exception, with the world untouched. *)
Theorem read_img_file_parse_failure (w : World) (input_path : Path)
    (want_header : bool) (channels_axis : option Z) (globber : string)
    (allow_default_affine : bool) (e : Exception) :
  is_dir w input_path = false →
  dcmread_result (files w) input_path = Err e →
  read_img input_path want_header channels_axis globber allow_default_affine w
  = (Err e, w).
Proof.
  intros Hd Hp. by rewrite read_img_file, read_dcm_file_spec, Hp.
Qed.
End read_effects.

(** ** More on the stable sort *)

Lemma key_le_Sorted_StronglySorted {A} (key : A → Z) (l : list A) :
  Sorted (key_le key) l → StronglySorted (key_le key) l.
Proof.
  apply Sorted_StronglySorted. intros x y z. unfold key_le. lia.
Qed.

(** Sorting a sorted list changes nothing. *)
Lemma list_sort_id {A} (key : A → Z) (l : list A) :
  StronglySorted (key_le key) l → list_sort key l = l.
Proof.
  induction 1 as [|x l Hl IH Hx]; simpl; [done|].
  rewrite IH. destruct l as [|y l]; simpl; [done|].
  apply Forall_cons in Hx as [Hxy _]. unfold key_le in Hxy.
  by rewrite (proj2 (Z.leb_le _ _) Hxy).
Qed.

(** ** What a read returns *)

Section read_results.
Context `{Collaborators}.

Lemma read_parsed_file_inv ds want_header allow_default_affine channels_axis img md :
  read_parsed_file ds want_header allow_default_affine channels_axis = Ok (img, md) →
  ∃ img0 aff spp,
    file_volume ds allow_default_affine = Ok (img0, aff)
    ∧ samples_per_pixel_of ds = Ok spp
    ∧ move_channels_axis img0 spp DEFAULT_CHANNELS_AXIS channels_axis = Ok img
    ∧ md = if want_header then set_header (header_of ds) (aff2meta aff)
           else aff2meta aff.
Proof.
  unfold read_parsed_file.
  destruct (file_volume ds allow_default_affine) as [[img0 aff]|e]; [|done].
  rewrite bind_Ok.
  destruct (samples_per_pixel_of ds) as [spp|e]; [|done]. rewrite bind_Ok.
  destruct (move_channels_axis img0 spp DEFAULT_CHANNELS_AXIS channels_axis)
    as [img1|e] eqn:Hmove; [|done].
  rewrite bind_Ok. intros [= <- <-]. by exists img0, aff, spp.
Qed.

Lemma combine_sorted_inv slices channels_axis img md :
  combine_sorted slices channels_axis = Ok (img, md) →
  ∃ img0 aff ds spp,
    combine_slices slices = Ok (img0, aff)
    ∧ first_slice slices = Ok ds
    ∧ samples_per_pixel_of ds = Ok spp
    ∧ move_channels_axis img0 spp DEFAULT_CHANNELS_AXIS channels_axis = Ok img
    ∧ md = aff2meta aff.
Proof.
  unfold combine_sorted.
  destruct (combine_slices slices) as [[img0 aff]|e]; [|done]. rewrite bind_Ok.
  destruct (first_slice slices) as [ds|e]; [|done]. rewrite bind_Ok.
  destruct (samples_per_pixel_of ds) as [spp|e] eqn:Hspp; [|done]. rewrite bind_Ok.
  destruct (move_channels_axis img0 spp DEFAULT_CHANNELS_AXIS channels_axis)
    as [img1|e] eqn:Hmove; [|done].
  rewrite bind_Ok. intros [= <- <-]. by exists img0, aff, ds, spp.
Qed.

Lemma read_img_inv input_path want_header channels_axis globber allow_default_affine
    w img md :
  (read_img input_path want_header channels_axis globber allow_default_affine w).1
  = Ok (img, md) →
  if is_dir w input_path
  then ∃ slices sorted,
         mapM (dcmread_result (files w)) (glob w input_path globber) = Ok slices
         ∧ sort_by_instance_number slices = Ok sorted
         ∧ combine_sorted sorted channels_axis = Ok (img, md)
  else ∃ ds,
         dcmread_result (files w) input_path = Ok ds
         ∧ read_parsed_file ds want_header allow_default_affine channels_axis
           = Ok (img, md).
Proof.
  destruct (is_dir w input_path) eqn:Hd.
  - rewrite read_img_dir by done.
    destruct (decide (glob w input_path globber = [])) as [Hnil|Hne].
    { by rewrite read_dcm_dir_empty. }
    destruct (read_dcm_dir_spec input_path globber channels_axis w Hne)
      as (w' & -> & _). simpl.
    destruct (mapM _ _) as [slices|e]; [|done]. rewrite bind_Ok.
    unfold combine_series.
    destruct (sort_by_instance_number slices) as [sorted|e] eqn:Hsort; [|done].
    rewrite bind_Ok. intros Hrun. by exists slices, sorted.
  - rewrite read_img_file, read_dcm_file_spec by done.
    destruct (dcmread_result (files w) input_path) as [ds|e]; [|done].
    simpl. intros Hrun. by exists ds.
Qed.

(** X7: allow_default_affine has no effect on the read of a single-frame
    file: outcome and final world are the same for both values. *)
Theorem read_img_single_frame_ignores_default_affine (w : World)
    (input_path : Path) (want_header : bool) (channels_axis : option Z)
    (globber : string) (allow_default_affine allow_default_affine' : bool)
    (ds : Dataset) :
  is_dir w input_path = false →
  dcmread_result (files w) input_path = Ok ds →
  convert_ds ds = FileDataset →
  read_img input_path want_header channels_axis globber allow_default_affine w
  = read_img input_path want_header channels_axis globber allow_default_affine' w.
Proof.
  intros Hd Hp Hcls. rewrite !read_img_file, !read_dcm_file_spec, Hp by done.
  unfold read_parsed_file, file_volume. by rewrite Hcls.
Qed.


(** X9: the metadata of every read that returns names the coordinate
    system itk. *)
Theorem read_img_coord_sys (w : World) (input_path : Path) (want_header : bool)
    (channels_axis : option Z) (globber : string) (allow_default_affine : bool)
    (img : np.ndarray) (md : MetaData) :
  (read_img input_path want_header channels_axis globber allow_default_affine w).1
  = Ok (img, md) →
  coord_sys md = "itk".
Proof.
  intros Hrun. apply read_img_inv in Hrun.
  destruct (is_dir w input_path).
  - destruct Hrun as (slices & sorted & _ & _ & Hrun).
    apply combine_sorted_inv in Hrun as (? & ? & ? & ? & _ & _ & _ & _ & ->). done.
  - destruct Hrun as (ds & _ & Hrun).
    apply read_parsed_file_inv in Hrun as (? & ? & ? & _ & _ & _ & ->).
    by destruct want_header.
Qed.

(** X10: when no target axis is given, or the file has at most one sample
    per pixel, the array and the affine a file read returns are exactly
    those of the volume reconstruction: the array is not touched. *)
Theorem read_img_file_volume_untouched (w : World) (input_path : Path)
    (want_header : bool) (channels_axis : option Z) (globber : string)
    (allow_default_affine : bool) (ds : Dataset) (img : np.ndarray) (md : MetaData) :
  is_dir w input_path = false →
  dcmread_result (files w) input_path = Ok ds →
  channels_axis = None ∨ (∃ n, ds !! SamplesPerPixel = Some (VInt n) ∧ n ≤ 1) →
  (read_img input_path want_header channels_axis globber allow_default_affine w).1
  = Ok (img, md) →
  file_volume ds allow_default_affine = Ok (img, affine md).
Proof.
  intros Hd Hp Hnoop Hrun. apply read_img_inv in Hrun. rewrite Hd in Hrun.
  destruct Hrun as (ds' & Hp' & Hrun). assert (ds' = ds) as -> by congruence.
  apply read_parsed_file_inv in Hrun as (img0 & aff & spp & Hvol & Hspp & Hmove & ->).
  rewrite Hvol. unfold move_channels_axis in Hmove.
  assert (img0 = img) as ->.
  { destruct Hnoop as [->|(n & Hn & Hle)].
    - destruct (bool_decide _); congruence.
    - unfold samples_per_pixel_of, getattr in Hspp. rewrite Hn in Hspp.
      rewrite bind_Ok in Hspp. injection Hspp as <-.
      rewrite bool_decide_eq_false_2 in Hmove by lia. congruence. }
  by destruct want_header.
Qed.

(** X11: a directory in which the glob finds one single-frame file reads
    like that file read on its own without header. *)
Theorem read_img_one_file_directory (w : World) (input_dir file : Path)
    (want_header : bool) (channels_axis : option Z) (globber globber' : string)
    (allow_default_affine allow_default_affine' : bool) (ds : Dataset) :
  is_dir w input_dir = true →
  is_dir w file = false →
  glob w input_dir globber = [file] →
  dcmread_result (files w) file = Ok ds →
  convert_ds ds = FileDataset →
  is_Some (returned (instance_key ds)) →
  read_img input_dir want_header channels_axis globber allow_default_affine w
  = read_img file false channels_axis globber' allow_default_affine' w.
Proof.
  intros Hdir Hfile Hglob Hp Hcls Hkey.
  rewrite read_img_dir, read_img_file, read_dcm_file_spec, Hp by done.
  assert (glob w input_dir globber ≠ []) as Hne by (by rewrite Hglob).
  assert (mapM (dcmread_result (files w)) (glob w input_dir globber) = Ok [ds])
    as Hparse.
  { rewrite Hglob, mapM_result_cons, Hp. done. }
  pose proof (read_dcm_dir_write_error input_dir globber channels_axis w) as Hwe.
  destruct (read_dcm_dir_parsed _ _ channels_axis w [ds] Hne Hparse)
    as (w' & Hrun & Hf & Hd' & Hg & Hlog).
  rewrite Hrun in Hwe. rewrite Hrun. clear Hrun.
  f_equal.
  - unfold combine_series.
    assert (sort_by_instance_number [ds] = Ok [ds]) as ->.
    { apply sort_by_instance_number_Ok. split; [by constructor|done]. }
    rewrite bind_Ok. unfold combine_sorted, read_parsed_file, file_volume.
    rewrite Hcls. done.
  - destruct w, w'. simpl in *. rewrite Hglob in Hlog. by subst.
Qed.
End read_results.

(** X12: a series the enumeration already yields in ascending order of
    instance number is combined in enumeration order. *)
Theorem sort_by_instance_number_sorted (slices : list Dataset) :
  Forall (λ ds, is_Some (returned (instance_key ds))) slices →
  Sorted (key_le instance_number) slices →
  sort_by_instance_number slices = Ok slices.
Proof.
  intros Hkeys Hsorted. apply sort_by_instance_number_Ok. split; [done|].
  symmetry. apply list_sort_id. by apply key_le_Sorted_StronglySorted.
Qed.

Section read_results_more.
Context `{Collaborators}.

(** X20: in a directory read, when no target axis is given or the slice
    with the lowest instance number has at most one sample per pixel, the
    array and the affine returned are exactly those of the combined series,
    whatever SamplesPerPixel the other slices carry. *)
Theorem read_img_dir_volume_untouched (w : World) (input_path : Path)
    (want_header : bool) (channels_axis : option Z) (globber : string)
    (allow_default_affine : bool) (slices rest : list Dataset) (lowest : Dataset)
    (img : np.ndarray) (md : MetaData) :
  is_dir w input_path = true →
  mapM (dcmread_result (files w)) (glob w input_path globber) = Ok slices →
  sort_by_instance_number slices = Ok (lowest :: rest) →
  channels_axis = None ∨ (∃ n, lowest !! SamplesPerPixel = Some (VInt n) ∧ n ≤ 1) →
  (read_img input_path want_header channels_axis globber allow_default_affine w).1
  = Ok (img, md) →
  combine_slices (lowest :: rest) = Ok (img, affine md).
Proof.
  intros Hd Hparse Hsort Hnoop Hrun. apply read_img_inv in Hrun. rewrite Hd in Hrun.
  destruct Hrun as (slices' & sorted & Hparse' & Hsort' & Hrun).
  assert (slices' = slices) as -> by congruence.
  assert (sorted = lowest :: rest) as -> by congruence.
  apply combine_sorted_inv in Hrun
    as (img0 & aff & ds & spp & Hvol & Hfirst & Hspp & Hmove & ->).
  rewrite Hvol. injection Hfirst as <-. unfold move_channels_axis in Hmove.
  assert (img0 = img) as ->; [|done].
  destruct Hnoop as [->|(n & Hn & Hle)].
  - destruct (bool_decide _); congruence.
  - unfold samples_per_pixel_of, getattr in Hspp. rewrite Hn in Hspp.
    rewrite bind_Ok in Hspp. injection Hspp as <-.
    rewrite bool_decide_eq_false_2 in Hmove by lia. congruence.
Qed.

(** X21: the channel move never reaches the metadata: two reads of the
    same path that differ only in channels_axis and both return, return the
    same metadata, affine included, though their arrays may differ in axis
    order. *)
Theorem read_img_metadata_ignores_channels_axis (w : World) (input_path : Path)
    (want_header : bool) (channels_axis channels_axis' : option Z)
    (globber : string) (allow_default_affine : bool)
    (img img' : np.ndarray) (md md' : MetaData) :
  (read_img input_path want_header channels_axis globber allow_default_affine w).1
  = Ok (img, md) →
  (read_img input_path want_header channels_axis' globber allow_default_affine w).1
  = Ok (img', md') →
  md = md'.
Proof.
  intros Hrun Hrun'. apply read_img_inv in Hrun, Hrun'.
  destruct (is_dir w input_path).
  - destruct Hrun as (slices & sorted & Hparse & Hsort & Hrun).
    destruct Hrun' as (slices' & sorted' & Hparse' & Hsort' & Hrun').
    assert (slices' = slices) as -> by congruence.
    assert (sorted' = sorted) as -> by congruence.
    apply combine_sorted_inv in Hrun as (? & aff & ? & ? & Hvol & _ & _ & _ & ->).
    apply combine_sorted_inv in Hrun' as (? & aff' & ? & ? & Hvol' & _ & _ & _ & ->).
    congruence.
  - destruct Hrun as (ds & Hp & Hrun). destruct Hrun' as (ds' & Hp' & Hrun').
    assert (ds' = ds) as -> by congruence.
    apply read_parsed_file_inv in Hrun as (? & aff & ? & Hvol & _ & _ & ->).
    apply read_parsed_file_inv in Hrun' as (? & aff' & ? & Hvol' & _ & _ & ->).
    assert (aff' = aff) as -> by congruence. done.
Qed.
End read_results_more.

(** ** More on the channel move *)

Lemma normalize_axis_index_Err (axis : Z) (nd : nat) :
  ¬ (- Z.of_nat nd ≤ axis < Z.of_nat nd) →
  np.normalize_axis_index axis nd = Err AxisError.
Proof. intros Hr. unfold np.normalize_axis_index. by rewrite decide_False. Qed.

Lemma relocate_head {A} (dst : nat) (x : A) (l : list A) :
  np.relocate 0 dst (x :: l) = take dst l ++ x :: drop dst l.
Proof. done. Qed.

Section channel_extras.
Context `{Collaborators}.

(** X13: with more than one sample per pixel, a source or target axis
    outside the dimensions of the array raises [AxisError]; with at most
    one sample per pixel the same axes are accepted and ignored. *)
Theorem move_channels_axis_out_of_range (array : np.ndarray) (samples_per_pixel : Z)
    (source target : Z) :
  ¬ (- Z.of_nat (np.ndim array) ≤ source < Z.of_nat (np.ndim array))
  ∨ ¬ (- Z.of_nat (np.ndim array) ≤ target < Z.of_nat (np.ndim array)) →
  move_channels_axis array samples_per_pixel source (Some target)
  = if bool_decide (samples_per_pixel > 1) then Err AxisError else Ok array.
Proof.
  intros Hrange. unfold move_channels_axis.
  destruct (bool_decide (samples_per_pixel > 1)); [|done].
  unfold np.moveaxis. destruct Hrange as [Hs|Ht].
  - by rewrite (normalize_axis_index_Err source) by done.
  - rewrite (normalize_axis_index_Err target) by done.
    unfold np.normalize_axis_index. by destruct (decide _).
Qed.

(** X14: from the default source axis 0, the channel move puts the
    leading axis at the target position and shifts the axes before that
    position down by one; target -1 makes the array channels-last, and the
    sample of channel c at index i of the array is the sample at index
    (i, c) of the result. *)
Theorem move_channels_axis_from_leading (array : np.ndarray) (samples_per_pixel : Z)
    (target : Z) (dst : nat) (first : nat * Z) (rest : list (nat * Z)) :
  1 < samples_per_pixel →
  np.axes array = first :: rest →
  np.normalize_axis_index target (np.ndim array) = Ok dst →
  move_channels_axis array samples_per_pixel DEFAULT_CHANNELS_AXIS (Some target)
  = Ok {| np.dtype := np.dtype array;
          np.axes := take dst rest ++ first :: drop dst rest;
          np.offset := np.offset array;
          np.buffer := np.buffer array |}
  ∧ (target = -1 →
     ∃ r, move_channels_axis array samples_per_pixel DEFAULT_CHANNELS_AXIS (Some target)
          = Ok r
          ∧ np.axes r = rest ++ [first]
          ∧ ∀ (c : nat) (idx : list nat), length idx = length rest →
              np.getitem r (idx ++ [c]) = np.getitem array (c :: idx)).
Proof.
  intros Hspp Haxes Hdst.
  assert (np.normalize_axis_index DEFAULT_CHANNELS_AXIS (np.ndim array) = Ok 0%nat)
    as Hsrc.
  { destruct (normalize_axis_index_Ok DEFAULT_CHANNELS_AXIS (np.ndim array))
      as (n & Hn & _ & Hz).
    - unfold DEFAULT_CHANNELS_AXIS, np.ndim. rewrite Haxes. simpl. lia.
    - unfold DEFAULT_CHANNELS_AXIS in *. rewrite decide_False in Hz by lia.
      by replace n with 0%nat in Hn by lia. }
  assert (move_channels_axis array samples_per_pixel DEFAULT_CHANNELS_AXIS (Some target)
          = Ok {| np.dtype := np.dtype array;
                  np.axes := take dst rest ++ first :: drop dst rest;
                  np.offset := np.offset array;
                  np.buffer := np.buffer array |}) as Hmove.
  { unfold move_channels_axis. rewrite bool_decide_eq_true_2 by lia.
    rewrite (moveaxis_Ok array _ _ 0%nat dst) by done.
    by rewrite Haxes, relocate_head. }
  split; [exact Hmove|]. intros ->. eexists. split; [exact Hmove|].
  assert (dst = length rest) as ->.
  { destruct (normalize_axis_index_Ok (-1) (np.ndim array)) as (n & Hn & _ & Hz).
    - unfold np.ndim. rewrite Haxes. simpl. lia.
    - rewrite decide_True in Hz by lia. unfold np.ndim in Hz.
      rewrite Haxes in Hz. simpl in Hz.
      assert (n = dst) as -> by congruence. lia. }
  simpl. rewrite take_ge, drop_ge by lia. split; [done|].
  intros c idx Hlen.
  replace (idx ++ [c]) with (np.relocate 0 (length rest) (c :: idx)).
  - apply (getitem_moveaxis array _ DEFAULT_CHANNELS_AXIS (-1)); try done.
    + unfold move_channels_axis in Hmove.
      rewrite bool_decide_eq_true_2 in Hmove by lia. rewrite Hmove.
      by rewrite take_ge, drop_ge by lia.
    + unfold np.ndim. rewrite Haxes. simpl. lia.
  - rewrite relocate_head, take_ge, drop_ge by lia. done.
Qed.
End channel_extras.

(** ** More on the write path *)







Section write_extras.
Context `{Collaborators}.



(** X17: what a write with keep_rescale false produces from a single-frame
    template cannot serve as the template of another such write: the
    rescale tags are gone, and the second write raises [AttributeError]. *)
Theorem save_arr2dcm_file_stripped_output_as_template (w : World)
    (output_filename template_filename output_filename' : Path)
    (img_arr img_arr' : np.ndarray) (dtype dtype' : option np.Dtype)
    (ds : Dataset) :
  let first := save_arr2dcm_file output_filename template_filename img_arr dtype
                 false w in
  dcmread_result (files w) template_filename = Ok ds →
  convert_ds ds = FileDataset →
  first.1 = Ok () →
  (∀ written, dcmread_result (files first.2) output_filename = Ok written →
              convert_ds written = FileDataset) →
  (save_arr2dcm_file output_filename' output_filename img_arr' dtype' false first.2).1
  = Err AttributeError.
Proof.
  intros first Hread Hcls Hok Hcls'. unfold first in *.
  destruct (save_arr2dcm_file_inv _ _ _ _ _ _ Hok) as (ds0 & ds' & Hread' & Hsub & Hfiles).
  assert (ds0 = ds) as -> by congruence.
  apply substitute_pixels_inv in Hsub as (stripped & arr & Hstrip & _ & ->).
  rewrite strip_rescale_single in Hstrip by done.
  destruct (decide _); [|done]. injection Hstrip as <-.
  rewrite save_arr2dcm_file_spec.
  set (written := <[PixelData := VBytes (np.tobytes arr)]>
                    (delete RescaleIntercept (delete RescaleSlope ds))) in *.
  assert (dcmread_result
            (files (save_arr2dcm_file output_filename template_filename img_arr
                      dtype false w).2) output_filename = Ok written) as Hout.
  { rewrite Hfiles. unfold dcmread_result. by rewrite lookup_insert_eq. }
  rewrite Hout. unfold substitute_pixels.
  rewrite strip_rescale_single by (by apply Hcls').
  rewrite decide_False; [done|].
  intros [[v Hslope] _]. unfold written in Hslope.
  rewrite lookup_insert_ne in Hslope by done.
  rewrite lookup_delete_ne in Hslope by done.
  by rewrite lookup_delete_eq in Hslope.
Qed.


End write_extras.

(** ** The further properties at work on the concrete instance *)

Section more_examples.
Import Fixture Cases.

Lemma read_img_parses_each_file_once_witness :
  ∃ img md,
    (read_img (H:=collaborators) "series" false None "*" false
       (world numbered_files listing_ab)).1 = Ok (img, md)
    ∧ parsed (read_img (H:=collaborators) "series" false None "*" false
                (world numbered_files listing_ab)).2
      = ["series/a"; "series/b"].
Proof.
  destruct (read_img (H:=collaborators) "series" false None "*" false
              (world numbered_files listing_ab)).1 as [[img md]|e] eqn:Hrun;
    [|vm_compute in Hrun; discriminate Hrun].
  exists img, md. split; [reflexivity|].
  exact (read_img_parses_each_file_once (H:=collaborators)
           (world numbered_files listing_ab) "series" false None "*" false
           img md Hrun).
Defined.

Lemma read_img_dir_first_parse_failure_witness :
  is_dir (world broken_files listing_abc) "series" = true
  ∧ glob (world broken_files listing_abc) "series" "*"
    = ["series/a"] ++ "series/b" :: ["series/c"]
  ∧ dcmread_result (files (world broken_files listing_abc)) "series/b"
    = Err InvalidDicomError
  ∧ (read_img (H:=collaborators) "series" false None "*" false
       (world broken_files listing_abc)).1 = Err InvalidDicomError
  ∧ parsed (read_img (H:=collaborators) "series" false None "*" false
              (world broken_files listing_abc)).2 = ["series/a"].
Proof.
  split; [reflexivity|]. split; [reflexivity|].
  split; [vm_compute; reflexivity|].
  apply (read_img_dir_first_parse_failure (H:=collaborators)
           (world broken_files listing_abc) "series" false None "*" false
           ["series/a"] ["series/c"] "series/b" InvalidDicomError).
  - reflexivity.
  - reflexivity.
  - apply (bool_decide_unpack (Forall _ _)). vm_compute. exact I.
  - vm_compute. reflexivity.
Defined.

Lemma read_img_file_parse_failure_witness :
  is_dir (world numbered_files []) "series/missing" = false
  ∧ dcmread_result (files (world numbered_files [])) "series/missing"
    = Err FileNotFoundError
  ∧ read_img (H:=collaborators) "series/missing" true None "*" false
      (world numbered_files [])
    = (Err FileNotFoundError, world numbered_files []).
Proof.
  assert (is_dir (world numbered_files []) "series/missing" = false) as Hd
    by reflexivity.
  assert (dcmread_result (files (world numbered_files [])) "series/missing"
          = Err FileNotFoundError) as Hp by (vm_compute; reflexivity).
  split; [exact Hd|]. split; [exact Hp|].
  exact (read_img_file_parse_failure (H:=collaborators) (world numbered_files [])
           "series/missing" true None "*" false FileNotFoundError Hd Hp).
Defined.

Lemma read_img_single_frame_ignores_default_affine_witness :
  is_dir (world numbered_files []) "series/a" = false
  ∧ dcmread_result (files (world numbered_files [])) "series/a" = Ok numbered_2
  ∧ convert_ds (Collaborators:=collaborators) numbered_2 = FileDataset
  ∧ read_img (H:=collaborators) "series/a" false None "*" false
      (world numbered_files [])
    = read_img (H:=collaborators) "series/a" false None "*" true
        (world numbered_files []).
Proof.
  assert (dcmread_result (files (world numbered_files [])) "series/a" = Ok numbered_2)
    as Hp by (vm_compute; reflexivity).
  assert (convert_ds (Collaborators:=collaborators) numbered_2 = FileDataset) as Hcls
    by (vm_compute; reflexivity).
  split; [reflexivity|]. split; [exact Hp|]. split; [exact Hcls|].
  apply (read_img_single_frame_ignores_default_affine (H:=collaborators)
           (world numbered_files []) "series/a" false None "*" false true numbered_2);
    [reflexivity|exact Hp|exact Hcls].
Defined.

Lemma read_img_coord_sys_witness :
  ∃ img md,
    (read_img (H:=collaborators) "series/a" true None "*" false
       (world numbered_files [])).1 = Ok (img, md)
    ∧ coord_sys md = "itk".
Proof.
  destruct (read_img (H:=collaborators) "series/a" true None "*" false
              (world numbered_files [])).1 as [[img md]|e] eqn:Hrun;
    [|vm_compute in Hrun; discriminate Hrun].
  exists img, md. split; [reflexivity|].
  exact (read_img_coord_sys (H:=collaborators) (world numbered_files [])
           "series/a" true None "*" false img md Hrun).
Defined.

Lemma read_img_file_volume_untouched_witness :
  ∃ img md,
    is_dir (world numbered_files []) "series/a" = false
    ∧ dcmread_result (files (world numbered_files [])) "series/a" = Ok numbered_2
    ∧ numbered_2 !! SamplesPerPixel = Some (VInt 1)
    ∧ (read_img (H:=collaborators) "series/a" false (Some 1) "*" false
         (world numbered_files [])).1 = Ok (img, md)
    ∧ file_volume (H:=collaborators) numbered_2 false = Ok (img, affine md).
Proof.
  assert (dcmread_result (files (world numbered_files [])) "series/a" = Ok numbered_2)
    as Hp by (vm_compute; reflexivity).
  assert (numbered_2 !! SamplesPerPixel = Some (VInt 1)) as Hspp
    by (vm_compute; reflexivity).
  destruct (read_img (H:=collaborators) "series/a" false (Some 1) "*" false
              (world numbered_files [])).1 as [[img md]|e] eqn:Hrun;
    [|vm_compute in Hrun; discriminate Hrun].
  exists img, md. split; [reflexivity|]. split; [exact Hp|]. split; [exact Hspp|].
  split; [reflexivity|].
  apply (read_img_file_volume_untouched (H:=collaborators) (world numbered_files [])
           "series/a" false (Some 1) "*" false numbered_2 img md);
    [reflexivity|exact Hp| |exact Hrun].
  right. exists 1. split; [exact Hspp|lia].
Defined.

Lemma read_img_one_file_directory_witness :
  is_dir (world numbered_files ["series/a"]) "series" = true
  ∧ is_dir (world numbered_files ["series/a"]) "series/a" = false
  ∧ glob (world numbered_files ["series/a"]) "series" "*" = ["series/a"]
  ∧ dcmread_result (files (world numbered_files ["series/a"])) "series/a"
    = Ok numbered_2
  ∧ read_img (H:=collaborators) "series" true None "*" false
      (world numbered_files ["series/a"])
    = read_img (H:=collaborators) "series/a" false None "*" false
        (world numbered_files ["series/a"]).
Proof.
  assert (dcmread_result (files (world numbered_files ["series/a"])) "series/a"
          = Ok numbered_2) as Hp by (vm_compute; reflexivity).
  split; [reflexivity|]. split; [reflexivity|]. split; [reflexivity|].
  split; [exact Hp|].
  apply (read_img_one_file_directory (H:=collaborators)
           (world numbered_files ["series/a"]) "series" "series/a" true None
           "*" "*" false false numbered_2);
    [reflexivity|reflexivity|reflexivity|exact Hp|vm_compute; reflexivity|].
  vm_compute. by eexists.
Defined.

Lemma sort_by_instance_number_sorted_witness :
  Sorted (key_le instance_number) [numbered_neg; untagged_a; numbered_1; numbered_2]
  ∧ sort_by_instance_number [numbered_neg; untagged_a; numbered_1; numbered_2]
    = Ok [numbered_neg; untagged_a; numbered_1; numbered_2].
Proof.
  assert (Sorted (key_le instance_number)
            [numbered_neg; untagged_a; numbered_1; numbered_2]) as Hsorted.
  { repeat constructor; unfold key_le; vm_compute; discriminate. }
  split; [exact Hsorted|].
  apply sort_by_instance_number_sorted; [|exact Hsorted].
  apply (bool_decide_unpack (Forall _ _)). vm_compute. exact I.
Defined.

Lemma read_img_dir_volume_untouched_witness :
  ∃ img md,
    mapM (dcmread_result (files (world numbered_files listing_ab)))
         (glob (world numbered_files listing_ab) "series" "*")
    = Ok [numbered_2; numbered_1]
    ∧ sort_by_instance_number [numbered_2; numbered_1] = Ok [numbered_1; numbered_2]
    ∧ (read_img (H:=collaborators) "series" false None "*" false
         (world numbered_files listing_ab)).1 = Ok (img, md)
    ∧ combine_slices (Collaborators:=collaborators) [numbered_1; numbered_2]
      = Ok (img, affine md).
Proof.
  assert (mapM (dcmread_result (files (world numbered_files listing_ab)))
               (glob (world numbered_files listing_ab) "series" "*")
          = Ok [numbered_2; numbered_1]) as Hparse by (vm_compute; reflexivity).
  assert (sort_by_instance_number [numbered_2; numbered_1]
          = Ok [numbered_1; numbered_2]) as Hsort by (vm_compute; reflexivity).
  destruct (read_img (H:=collaborators) "series" false None "*" false
              (world numbered_files listing_ab)).1 as [[img md]|e] eqn:Hrun;
    [|vm_compute in Hrun; discriminate Hrun].
  exists img, md. split; [exact Hparse|]. split; [exact Hsort|].
  split; [reflexivity|].
  apply (read_img_dir_volume_untouched (H:=collaborators)
           (world numbered_files listing_ab) "series" false None "*" false
           [numbered_2; numbered_1] [numbered_2] numbered_1 img md);
    [reflexivity|exact Hparse|exact Hsort|by left|exact Hrun].
Defined.

Lemma read_img_metadata_ignores_channels_axis_witness :
  ∃ img img' md md',
    (read_img (H:=collaborators) "series" false None "*" false
       (world numbered_files listing_ab)).1 = Ok (img, md)
    ∧ (read_img (H:=collaborators) "series" false (Some 1) "*" false
         (world numbered_files listing_ab)).1 = Ok (img', md')
    ∧ md = md'.
Proof.
  destruct (read_img (H:=collaborators) "series" false None "*" false
              (world numbered_files listing_ab)).1 as [[img md]|e] eqn:Hrun;
    [|vm_compute in Hrun; discriminate Hrun].
  destruct (read_img (H:=collaborators) "series" false (Some 1) "*" false
              (world numbered_files listing_ab)).1 as [[img' md']|e] eqn:Hrun';
    [|vm_compute in Hrun'; discriminate Hrun'].
  exists img, img', md, md'. split; [reflexivity|]. split; [reflexivity|].
  exact (read_img_metadata_ignores_channels_axis (H:=collaborators)
           (world numbered_files listing_ab) "series" false None (Some 1) "*" false
           img img' md md' Hrun Hrun').
Defined.

Lemma move_channels_axis_out_of_range_witness :
  ¬ (- Z.of_nat (np.ndim rgb) ≤ 2 < Z.of_nat (np.ndim rgb))
  ∧ move_channels_axis rgb 3 0 (Some 2) = Err AxisError
  ∧ move_channels_axis rgb 1 0 (Some 2) = Ok rgb.
Proof.
  assert (¬ (- Z.of_nat (np.ndim rgb) ≤ 2 < Z.of_nat (np.ndim rgb))) as Hrange
    by (vm_compute; intros [_ Hlt]; discriminate Hlt).
  split; [exact Hrange|]. split.
  - exact (move_channels_axis_out_of_range rgb 3 0 2 (or_intror Hrange)).
  - exact (move_channels_axis_out_of_range rgb 1 0 2 (or_intror Hrange)).
Defined.

Lemma move_channels_axis_from_leading_witness :
  1 < 3
  ∧ np.axes rgb = (3%nat, 2) :: [(2%nat, 1)]
  ∧ np.normalize_axis_index (-1) (np.ndim rgb) = Ok 1%nat
  ∧ ∃ r, move_channels_axis rgb 3 DEFAULT_CHANNELS_AXIS (Some (-1)) = Ok r
         ∧ np.axes r = [(2%nat, 1); (3%nat, 2)]
         ∧ np.getitem r [1%nat; 2%nat] = np.getitem rgb [2%nat; 1%nat].
Proof.
  destruct (move_channels_axis_from_leading rgb 3 (-1) 1%nat (3%nat, 2) [(2%nat, 1)])
    as [_ Hlast]; [lia|reflexivity|reflexivity|].
  destruct (Hlast eq_refl) as (r & Hr & Haxes & Hget).
  split; [lia|]. split; [reflexivity|]. split; [reflexivity|].
  exists r. split; [exact Hr|]. split; [exact Haxes|].
  exact (Hget 2%nat [1%nat] eq_refl).
Defined.



Lemma save_arr2dcm_file_stripped_output_as_template_witness :
  (save_arr2dcm_file (H:=collaborators) "out.dcm" "template.dcm" image None false
     (world template_files [])).1 = Ok ()
  ∧ (save_arr2dcm_file (H:=collaborators) "again.dcm" "out.dcm" image None false
       (save_arr2dcm_file (H:=collaborators) "out.dcm" "template.dcm" image None
          false (world template_files [])).2).1
    = Err AttributeError.
Proof.
  assert (dcmread_result (files (world template_files [])) "template.dcm"
          = Ok template) as Hread by (vm_compute; reflexivity).
  assert ((save_arr2dcm_file (H:=collaborators) "out.dcm" "template.dcm" image None
             false (world template_files [])).1 = Ok ()) as Hok
    by (vm_compute; reflexivity).
  split; [exact Hok|].
  apply (save_arr2dcm_file_stripped_output_as_template (H:=collaborators)
           (world template_files []) "out.dcm" "template.dcm" "again.dcm"
           image image None None template Hread);
    [vm_compute; reflexivity|exact Hok|].
  intros written Hwritten. vm_compute in Hwritten. injection Hwritten as <-.
  vm_compute. reflexivity.
Defined.


End more_examples.

(** ** Enumeration order, with a combiner that orders the slices itself *)

Section enumeration_independent.
Context `{Collaborators}.


End enumeration_independent.




